(** * Shiba: the game client, its crash-point verifier and its tick model

    A shallow embedding of the parts of the Shiba bot that track a round of
    the game: [Lib.js] (growth function, crash point), [LinearModel.js]
    (running least-squares fit) and the game client (the event handlers and
    the queries built on them).

    JavaScript numbers are IEEE-754 binary64 values; they are modelled by
    Rocq's primitive [float], whose operations are the binary64 ones
    (round to nearest, ties to even).  Quantities that the protocol keeps
    integral (elapsed milliseconds, array lengths, hash digits) are [Z]. *)

From Stdlib Require Import ZArith List Ascii String Floats Uint63 Bool Lia.
From Stdlib Require Import DecimalString.
From stdpp Require Import gmap strings list sorting.

Local Open Scope Z_scope.
Local Set Warnings "-inexact-float".

(** ** JavaScript numbers *)

Module JS.

(** The Number nearest to a mathematical integer (ties to even). *)
Definition Z_to_number (z : Z) : float :=
  SF2Prim (binary_normalize prec emax z 0 false).

(** [Math.floor], through the sign/mantissa/exponent reading of a double. *)
Definition floorZ (s : bool) (m : positive) (e : Z) : Z :=
  let n := Z.shiftl (Z.pos m) e in (* floor (m * 2^e), also for e < 0 *)
  if s then
    (if Z.shiftl n (- e) =? Z.pos m then - n else - n - 1)
  else n.

Definition Math_floor (x : float) : float :=
  match Prim2SF x with
  | S754_finite s m e => if 0 <=? e then x else Z_to_number (floorZ s m e)
  | _ => x
  end.

(** [Math.ceil(x)] is [-Math.floor(-x)], signed zeros included. *)
Definition Math_ceil (x : float) : float := (- Math_floor (- x))%float.

Definition Math_abs (x : float) : float := PrimFloat.abs x.

(** The integer a Number denotes, when it denotes one. *)
Definition number_to_Z (x : float) : option Z :=
  match Prim2SF x with
  | S754_zero _ => Some 0
  | S754_finite s m e =>
      if 0 <=? e then Some (if s then - Z.shiftl (Z.pos m) e else Z.shiftl (Z.pos m) e)
      else if Z.shiftl (Z.shiftl (Z.pos m) e) (- e) =? Z.pos m
           then Some (if s then - Z.shiftl (Z.pos m) e else Z.shiftl (Z.pos m) e)
           else None
  | _ => None
  end.

(** [ToInt32] on an integer, and the 32-bit [<<]. *)
Definition to_int32 (z : Z) : Z := (z + 2 ^ 31) mod 2 ^ 32 - 2 ^ 31.

Definition shl32 (z k : Z) : Z := to_int32 (Z.shiftl (to_int32 z) (k mod 32)).

(** Integers-or-NaN: the values the digit loop of [Lib.divisible] and
    [parseInt] handle.  [None] is NaN. *)
Definition int_or_nan := option Z.

Definition to_number (v : int_or_nan) : float :=
  match v with Some z => Z_to_number z | None => nan end.

(** [a + b], [a % m] and [a << k] on integers-or-NaN.  [%] keeps the sign of
    the dividend and is NaN for a zero divisor; [<<] reads NaN as 0. *)
Definition add (a b : int_or_nan) : int_or_nan :=
  match a, b with Some x, Some y => Some (x + y) | _, _ => None end.

Definition rem (a : int_or_nan) (m : Z) : int_or_nan :=
  match a with
  | Some x => if m =? 0 then None else Some (Z.rem x m)
  | None => None
  end.

Definition shl (a : int_or_nan) (k : Z) : int_or_nan :=
  match a with Some x => Some (shl32 x k) | None => Some 0 end.

(** [ToNumber] of a value that is a Number or, when [None], [undefined]
    (NaN), respectively [null] (0). *)
Definition of_undefined (v : option float) : float :=
  match v with Some x => x | None => nan end.

Definition of_null (v : option float) : float :=
  match v with Some x => x | None => 0%float end.

(** [parseInt(s, 16)]: leading white space, a sign, an optional [0x], then
    the longest run of hexadecimal digits; NaN when that run is empty.  The
    sign of a zero result is dropped. *)
Definition hex_digit (c : ascii) : option Z :=
  let n := Z.of_N (N_of_ascii c) in
  if (48 <=? n) && (n <=? 57) then Some (n - 48)
  else if (97 <=? n) && (n <=? 102) then Some (n - 87)
  else if (65 <=? n) && (n <=? 70) then Some (n - 55)
  else None.

Definition is_space (c : ascii) : bool :=
  let n := Z.of_N (N_of_ascii c) in
  ((9 <=? n) && (n <=? 13)) || (n =? 32).

Fixpoint skip_space (s : string) : string :=
  match s with
  | String c r => if is_space c then skip_space r else s
  | EmptyString => s
  end.

Fixpoint hex_run (acc : option Z) (s : string) : option Z :=
  match s with
  | String c r =>
      match hex_digit c with
      | Some d => hex_run (Some (match acc with Some a => a * 16 + d | None => d end)) r
      | None => acc
      end
  | EmptyString => acc
  end.

Definition strip_0x (s : string) : string :=
  match s with
  | String "0" (String "x" r) => r
  | String "0" (String "X" r) => r
  | _ => s
  end.

Definition parseInt16 (s : string) : int_or_nan :=
  match skip_space s with
  | String "-" r => option_map Z.opp (hex_run None (strip_0x r))
  | String "+" r => hex_run None (strip_0x r)
  | r => hex_run None (strip_0x r)
  end.

(** [s.slice(0, n)] and [s.split('')] on a string of one-unit characters. *)
Fixpoint slice0 (n : nat) (s : string) : string :=
  match n, s with
  | S k, String c r => String c (slice0 k r)
  | _, _ => EmptyString
  end.

Definition split_chars (s : string) : list string :=
  List.map (fun c => String c EmptyString) (list_ascii_of_string s).

(** ['' + n] for an integer [n] (below 1e21 in size, where a Number prints
    all its digits), and [words.join(sep)]. *)
Definition decimal (n : Z) : string := NilZero.string_of_int (Z.to_int n).

Fixpoint join (sep : string) (words : list string) : string :=
  match words with
  | [] => EmptyString
  | [w] => w
  | w :: rest => (w ++ sep ++ join sep rest)%string
  end.

End JS.

(** ** SHA-256 and HMAC (Node's [crypto] module, FIPS 180-4 and RFC 2104) *)

Module Crypto.

Definition w32 (x : Z) : Z := x mod 2 ^ 32.
Definition add32 (x y : Z) : Z := w32 (x + y).
Definition rotr (n x : Z) : Z := Z.lor (Z.shiftr x n) (w32 (Z.shiftl x (32 - n))).
Definition not32 (x : Z) : Z := Z.lxor x 4294967295.

Definition Ch (x y z : Z) : Z := Z.lxor (Z.land x y) (Z.land (not32 x) z).
Definition Maj (x y z : Z) : Z :=
  Z.lxor (Z.lxor (Z.land x y) (Z.land x z)) (Z.land y z).
Definition Sigma0 (x : Z) : Z := Z.lxor (Z.lxor (rotr 2 x) (rotr 13 x)) (rotr 22 x).
Definition Sigma1 (x : Z) : Z := Z.lxor (Z.lxor (rotr 6 x) (rotr 11 x)) (rotr 25 x).
Definition sigma0 (x : Z) : Z := Z.lxor (Z.lxor (rotr 7 x) (rotr 18 x)) (Z.shiftr x 3).
Definition sigma1 (x : Z) : Z := Z.lxor (Z.lxor (rotr 17 x) (rotr 19 x)) (Z.shiftr x 10).

(** The constants, as FIPS 180-4 defines them: the first 32 bits of the
    fractional parts of the cube roots of the first 64 primes, and of the
    square roots of the first 8. *)
Definition is_prime (n : nat) : bool :=
  List.forallb (fun d => negb (Z.of_nat n mod Z.of_nat d =? 0)) (List.seq 2 (n - 2)).

Definition primes : list Z :=
  List.map Z.of_nat (List.filter is_prime (List.seq 2 310)).

Fixpoint cube_root_bits (bits : nat) (n r : Z) : Z :=
  match bits with
  | O => r
  | S k =>
      let c := r + 2 ^ Z.of_nat k in
      cube_root_bits k n (if c * c * c <=? n then c else r)
  end.

Definition K256 : list Z :=
  Eval vm_compute in
    List.map (fun p => w32 (cube_root_bits 36 (p * 2 ^ 96) 0)) primes.

Definition H256 : list Z :=
  Eval vm_compute in
    List.map (fun p => w32 (Z.sqrt (p * 2 ^ 64))) (List.firstn 8 primes).

Definition word (l : list Z) (i : nat) : Z := List.nth i l 0.

(** One round: the working variables [a..h] and the sliding window of the
    sixteen most recent schedule words, the head being [W_t]. *)
Definition round (st : list Z * list Z) (k : Z) : list Z * list Z :=
  let '(v, w) := st in
  let t1 := add32 (add32 (add32 (add32 (word v 7) (Sigma1 (word v 4)))
                                (Ch (word v 4) (word v 5) (word v 6))) k) (word w 0) in
  let t2 := add32 (Sigma0 (word v 0)) (Maj (word v 0) (word v 1) (word v 2)) in
  let wn := add32 (add32 (add32 (sigma1 (word w 14)) (word w 9))
                         (sigma0 (word w 1))) (word w 0) in
  ([ add32 t1 t2; word v 0; word v 1; word v 2;
     add32 (word v 3) t1; word v 4; word v 5; word v 6 ],
   List.tl w ++ [wn]).

Fixpoint be_words (bs : list Z) : list Z :=
  match bs with
  | a :: b :: c :: d :: r => (((a * 256 + b) * 256 + c) * 256 + d) :: be_words r
  | _ => []
  end.

Definition compress (h : list Z) (block : list Z) : list Z :=
  let '(v, _) := List.fold_left round K256 (h, be_words block) in
  List.map (fun p => add32 (fst p) (snd p)) (List.combine h v).

Fixpoint blocks (fuel : nat) (h : list Z) (bs : list Z) : list Z :=
  match fuel, bs with
  | S f, _ :: _ => blocks f (compress h (List.firstn 64 bs)) (List.skipn 64 bs)
  | _, _ => h
  end.

Definition be_bytes (n : nat) (x : Z) : list Z :=
  List.map (fun i => Z.shiftr x (8 * Z.of_nat i) mod 256) (List.rev (List.seq 0 n)).

Definition pad (msg : list Z) : list Z :=
  let len := Z.of_nat (List.length msg) in
  let zeros := Z.to_nat ((55 - len) mod 64) in
  msg ++ [128] ++ List.repeat 0 zeros ++ be_bytes 8 (8 * len).

Definition sha256 (msg : list Z) : list Z :=
  let p := pad msg in
  List.concat (List.map (be_bytes 4) (blocks (List.length p) H256 p)).

Definition hmac_sha256 (key msg : list Z) : list Z :=
  let k0 := if 64 <? Z.of_nat (List.length key) then sha256 key else key in
  let k := k0 ++ List.repeat 0 (64 - List.length k0) in
  sha256 (List.map (Z.lxor 0x5c) k ++ sha256 (List.map (Z.lxor 0x36) k ++ msg)).

(** [digest('hex')]: two lower-case digits per byte. *)
Definition hex_char (n : Z) : ascii :=
  ascii_of_N (Z.to_N (if n mod 16 <? 10 then 48 + n mod 16 else 87 + n mod 16)).

Fixpoint hex (bs : list Z) : string :=
  match bs with
  | b :: r => String (hex_char (b / 16)) (String (hex_char b) (hex r))
  | [] => EmptyString
  end.

Definition bytes_of (s : string) : list Z :=
  List.map (fun c => Z.of_N (N_of_ascii c)) (list_ascii_of_string s).

(** [crypto.createHmac('sha256', key).update(msg).digest('hex')] on strings
    given by their bytes. *)
Definition createHmac_sha256_hex (key msg : string) : string :=
  hex (hmac_sha256 (bytes_of key) (bytes_of msg)).

End Crypto.

(** ** Lib.js *)

Module Lib.

Definition clientSeed : string :=
  "000000000000000007a9a31ff7f07463d91af6b5454241d5faf282e5e0fe1b3a".

(** [Math.E], and [Math.pow(2,52)], which is the double 2^52 itself. *)
Definition Math_E : float := 2.718281828459045%float.
Definition two52 : float := 4503599627370496%float.

(** [divisible(hash, mod)]: the digits are folded from the left,
    [r = ((r << 4) + parseInt(d,16)) % mod], and the end value is compared
    with 0. *)
Definition divisible (hash : string) (mod_ : Z) : bool :=
  let val :=
    List.fold_left
      (fun r d => JS.rem (JS.add (JS.shl r 4) (JS.parseInt16 d)) mod_)
      (JS.split_chars hash) (Some 0) in
  match val with
  | Some 0 => true
  | _ => false
  end.

Definition crashPoint (serverSeed : string) : float :=
  let hash := Crypto.createHmac_sha256_hex serverSeed clientSeed in
  (* In 1 of 101 games the game crashes instantly. *)
  if divisible hash 101 then 0%float
  else
    (* the most significant 52 bits of the hash *)
    let h := JS.to_number (JS.parseInt16 (JS.slice0 (Z.to_nat (52 / 4)) hash)) in
    let e := two52 in
    JS.Math_floor ((100 * e - h) / (e - h))%float.

(** [sha256(data)]: the hex digest of a string. *)
Definition sha256 (data : string) : string :=
  Crypto.hex (Crypto.sha256 (Crypto.bytes_of data)).

(** [isInvalidUsername(input)].  A string is given by its UTF-16 code units,
    which is what [length] counts and the regular expression reads; the
    answer is an error name or, when [None], [false]. *)
Inductive UsernameError :=
  NOT_STRING | NOT_PROVIDED | TOO_SHORT | TOO_LONG | INVALID_CHARS.

Inductive Input :=
| NotAString
| Str (units : list Z).

(** The class [[a-z0-9_\-]] under the flag [i]: case is folded for ASCII
    letters only, a unit above 127 never matches an ASCII one. *)
Definition name_unit (u : Z) : bool :=
  ((97 <=? u) && (u <=? 122)) || ((65 <=? u) && (u <=? 90)) ||
  ((48 <=? u) && (u <=? 57)) || (u =? 95) || (u =? 45).

Definition units_of (s : string) : list Z :=
  List.map (fun c => Z.of_N (N_of_ascii c)) (list_ascii_of_string s).

Definition units_eqb (a b : list Z) : bool :=
  (Nat.eqb (List.length a) (List.length b)) &&
  List.forallb (fun p => fst p =? snd p) (List.combine a b).

Definition isInvalidUsername (input : Input) : option UsernameError :=
  match input with
  | NotAString => Some NOT_STRING
  | Str s =>
      let length := Z.of_nat (List.length s) in
      if length =? 0 then Some NOT_PROVIDED
      else if length <? 3 then Some TOO_SHORT
      else if 50 <? length then Some TOO_LONG
      else if negb (List.forallb name_unit s) then Some INVALID_CHARS
      else if units_eqb s (units_of "__proto__") then Some INVALID_CHARS
      else None
  end.

(** [formatTimeDiff(diff)] for a whole number of milliseconds (the
    difference of two dates).  On integers [%] is the remainder with the
    sign of the dividend and [Math.floor(x / k)] the floor of the quotient.
    Every [return] is [words.join(' ')]. *)
Definition time_units (diff : Z) : Z * Z * Z * Z :=
  let diff := diff / 1000 in
  let s := Z.rem diff 60 in let diff := diff / 60 in
  let m := Z.rem diff 60 in let diff := diff / 60 in
  let h := Z.rem diff 24 in let diff := diff / 24 in
  let d := diff in
  (d, h, m, s).

Definition push_unit (n : Z) (unit : string) (acc : list string * Z)
    : list string * Z :=
  if 0 <? n then (fst acc ++ [(JS.decimal n ++ unit)%string], snd acc + 1) else acc.

Definition formatTimeDiff_words (diff : Z) : list string :=
  let '(d, h, m, s) := time_units diff in
  let acc := ([], 0) in
  let acc := push_unit d "d" acc in
  let acc := push_unit h "h" acc in
  if 2 <=? snd acc then fst acc
  else
    let acc := push_unit m "m" acc in
    if 2 <=? snd acc then fst acc
    else
      let acc := push_unit s "s" acc in
      fst acc.

Definition formatTimeDiff (diff : Z) : string :=
  JS.join " " (formatTimeDiff_words diff).

(** The growth function and its inverse.  [Math.pow] and [Math.log] are the
    host's; the functions are stated over any such pair. *)
Section Growth.
Variable Math_pow : float -> float -> float.
Variable Math_log : float -> float.

Definition growthFunc (ms : float) : float :=
  let r := 0.00006%float in
  JS.Math_floor (100 * Math_pow Math_E (r * ms))%float.

Definition inverseGrowth (result : float) : float :=
  let c := 16666.66666667%float in
  (c * Math_log (0.01 * result))%float.

Definition duration (cp : float) : float :=
  JS.Math_ceil (inverseGrowth (cp + 1)%float).
End Growth.

End Lib.

(** ** LinearModel.js *)

Module LinearModel.

(** The constructor initialises every field but [sx2]; a property that was
    never assigned reads [undefined], here [None]. *)
Record t := mk
  { n : float; sxy : float; sx : float; sy : float;
    sx2 : option float; alpha : float; beta : float }.

Definition new : t :=
  {| n := 0; sxy := 0; sx := 0; sy := 0; sx2 := None; alpha := 0; beta := 0 |}.

Definition add (x y : float) (m : t) : t :=
  let sxy' := (sxy m + x * y)%float in
  let sx'  := (sx m + x)%float in
  let sy'  := (sy m + y)%float in
  let sx2' := (JS.of_undefined (sx2 m) + x * x)%float in
  let beta' :=
    ((sxy' - sx' * sy' / n m) /
     (* TODO in the source: check for divide-by-zero *)
     (sx2' - sx' * sx' / n m))%float in
  let alpha' := ((sy' - beta' * sx') / n m)%float in
  {| n := n m; sxy := sxy'; sx := sx'; sy := sy'; sx2 := Some sx2';
     alpha := alpha'; beta := beta' |}.

Definition evaluate (m : t) (x : float) : float :=
  (alpha m + x * beta m)%float.

End LinearModel.

(** ** The game client

    The socket, the log lines and the events that the client re-emits to its
    subscribers are left out: nothing of them comes back into the client's
    fields.  The clocks are arguments of the handlers. *)

Inductive UserState :=
  WATCHING | PLACING | PLACED | PLAYING | CASHINGOUT | CASHEDOUT | CRASHED.

Inductive GameState := STARTING | IN_PROGRESS | ENDED.

Inductive Verified := ok | scam.

(** An exception escaping a method. *)
Inductive Error := TypeError | AssertionError.

Inductive Result (A : Type) :=
| Ok (a : A)
| Throw (e : Error).
Arguments Ok {A} a.
Arguments Throw {A} e.

Definition UserState_eqb (a b : UserState) : bool :=
  match a, b with
  | WATCHING, WATCHING | PLACING, PLACING | PLACED, PLACED | PLAYING, PLAYING
  | CASHINGOUT, CASHINGOUT | CASHEDOUT, CASHEDOUT | CRASHED, CRASHED => true
  | _, _ => false
  end.

Definition GameState_eqb (a b : GameState) : bool :=
  match a, b with
  | STARTING, STARTING | IN_PROGRESS, IN_PROGRESS | ENDED, ENDED => true
  | _, _ => false
  end.

(** [v === 'NAME']: a property holding [null] or [undefined] ([None]) equals
    no state name. *)
Definition strict_eq (v : option UserState) (s : UserState) : bool :=
  match v with Some u => UserState_eqb u s | None => false end.

Module Player.
(** An entry of [game.players]; absent properties are [None]. *)
Record t := mk
  { bet : option float; stopped_at : option float; bonus : option float }.
Definition empty : t := {| bet := None; stopped_at := None; bonus := None |}.
Definition set_bet (b : float) (p : t) : t :=
  {| bet := Some b; stopped_at := stopped_at p; bonus := bonus p |}.
Definition set_stopped_at (x : float) (p : t) : t :=
  {| bet := bet p; stopped_at := Some x; bonus := bonus p |}.
Definition set_bonus (x : float) (p : t) : t :=
  {| bet := bet p; stopped_at := stopped_at p; bonus := Some x |}.
End Player.

(** [game.players] is a plain object used as a map from the players' names
    to their entries.  A plain object inherits from [Object.prototype]: a
    read [players[name]] that finds no own property goes on to the property
    [Object.prototype] has under that name, a function, on which the
    handlers can hang properties like on an entry; and a method called on
    the object is looked up by its name like any other property, an entry
    stored under the name included.  The own properties are a [gmap]; the
    properties hung on the functions of [Object.prototype] are a second one,
    which outlives the round.

    The key [__proto__] is the accessor of the prototype link: assigning an
    entry to it adds no property (unless the object came with such a key
    from the wire).  What the entry assigned would lend in its turn, and
    properties written on [Object.prototype] itself through that key, are
    not followed: [Lib.isInvalidUsername] refuses the name. *)
Module Obj.

Definition names : list string :=
  [ "constructor"; "__defineGetter__"; "__defineSetter__"; "hasOwnProperty";
    "__lookupGetter__"; "__lookupSetter__"; "isPrototypeOf";
    "propertyIsEnumerable"; "toString"; "valueOf"; "__proto__";
    "toLocaleString" ]%string.

(** What [Object.prototype] lends when the process starts: functions with
    none of the properties of an entry. *)
Definition prototype : gmap string Player.t :=
  list_to_map (List.map (fun name => (name, Player.empty)) names).

Definition has (own : gmap string Player.t) (name : string) : bool :=
  match own !! name with Some _ => true | None => false end.

(** [o[name]]: the own property, else the inherited one, else
    [undefined]. *)
Definition get (proto own : gmap string Player.t) (name : string) : option Player.t :=
  match own !! name with
  | Some p => Some p
  | None => proto !! name
  end.

(** [o[name].field = v], [o[name]] being an entry or a function. *)
Definition update (f : Player.t -> Player.t) (name : string)
    (proto own : gmap string Player.t)
    : gmap string Player.t * gmap string Player.t :=
  match own !! name with
  | Some p => (proto, <[name := f p]> own)
  | None => (alter f name proto, own)
  end.

(** [o[name] = entry]. *)
Definition set (name : string) (entry : Player.t) (own : gmap string Player.t)
    : gmap string Player.t :=
  if String.eqb name "__proto__" && negb (has own name) then own
  else <[name := entry]> own.

(** [o.hasOwnProperty(name)]: the property [hasOwnProperty] of [o] is
    called.  An entry stored under that name is found first, and calling it
    throws. *)
Definition hasOwnProperty (own : gmap string Player.t) (name : string) : Result bool :=
  match own !! "hasOwnProperty"%string with
  | Some _ => Throw TypeError
  | None => Ok (has own name)
  end.

End Obj.

Module Tick.
(** [{ elapsed, growth, micro }]; [micro] is [None] when it holds
    [undefined]. *)
Record t := mk { elapsed : Z; growth : float; micro : option float }.
End Tick.

Module Game.
(** [this.game].  The object is created with a [crashpoint] property that
    nothing assigns afterwards; [onGameCrash] and [getGameInfo] use
    [crashPoint]. *)
Record t := mk
  { id : Z;
    serverSeedHash : option string;
    players : gmap string Player.t;
    state : GameState;
    startTime : float;
    microStartTime : option float;
    ticks : list Tick.t;
    crashpoint : option float;
    serverSeed : option string;
    forced : option bool;
    crashPoint : option float }.

Definition set_players (v : gmap string Player.t) (g : t) : t :=
  mk (id g) (serverSeedHash g) v (state g) (startTime g) (microStartTime g)
     (ticks g) (crashpoint g) (serverSeed g) (forced g) (crashPoint g).
Definition set_ticks (v : list Tick.t) (g : t) : t :=
  mk (id g) (serverSeedHash g) (players g) (state g) (startTime g) (microStartTime g)
     v (crashpoint g) (serverSeed g) (forced g) (crashPoint g).
Definition set_microStartTime (v : option float) (g : t) : t :=
  mk (id g) (serverSeedHash g) (players g) (state g) (startTime g) v
     (ticks g) (crashpoint g) (serverSeed g) (forced g) (crashPoint g).
(** [state], [startTime] and [microStartTime] as [onGameStarted] sets them. *)
Definition started (now now_micro : float) (g : t) : t :=
  mk (id g) (serverSeedHash g) (players g) IN_PROGRESS now (Some now_micro)
     (ticks g) (crashpoint g) (serverSeed g) (forced g) (crashPoint g).
(** [serverSeed], [crashPoint], [forced] and [state] as [onGameCrash] sets
    them. *)
Definition crashed (hash : string) (game_crash : float) (f : bool) (g : t) : t :=
  mk (id g) (serverSeedHash g) (players g) ENDED (startTime g) (microStartTime g)
     (ticks g) (crashpoint g) (Some hash) (Some f) (Some game_crash).
End Game.

(** What the handlers read from the clocks: [Date.now()] in milliseconds and
    [microtime.now()] in microseconds. *)
Record Clock := { date_now : float; microtime_now : float }.

Module Client.

(** The fields of the client, and with them the one piece of the process
    that its handlers reach beside them: the properties hung on the
    functions of [Object.prototype] (see [Obj]). *)
Record t := mk
  { userState : option UserState;
    lastServerSeed : option string;
    username : option string;
    balance : option float;
    game : option Game.t;
    tickModel : option LinearModel.t;
    prototype : gmap string Player.t }.

(** The constructor: every field is [null], and [Object.prototype] is as
    the process starts with it. *)
Definition new : t := mk None None None None None None Obj.prototype.

(** [this.state].  Neither the constructor nor any method (nor the event
    emitter the client inherits from) assigns such a property, so reading it
    gives [undefined]. *)
Definition state (c : t) : option UserState := None.

Definition set_userState (v : option UserState) (c : t) : t :=
  mk v (lastServerSeed c) (username c) (balance c) (game c) (tickModel c) (prototype c).
Definition set_lastServerSeed (v : option string) (c : t) : t :=
  mk (userState c) v (username c) (balance c) (game c) (tickModel c) (prototype c).
Definition set_balance (v : option float) (c : t) : t :=
  mk (userState c) (lastServerSeed c) (username c) v (game c) (tickModel c) (prototype c).
Definition set_game (v : option Game.t) (c : t) : t :=
  mk (userState c) (lastServerSeed c) (username c) (balance c) v (tickModel c) (prototype c).
Definition set_tickModel (v : option LinearModel.t) (c : t) : t :=
  mk (userState c) (lastServerSeed c) (username c) (balance c) (game c) v (prototype c).
Definition set_prototype (v : gmap string Player.t) (c : t) : t :=
  mk (userState c) (lastServerSeed c) (username c) (balance c) (game c) (tickModel c) v.

(** A property key made from [null] is the string [null]; a number is truthy
    unless it is 0 or NaN. *)
Definition key_of (u : option string) : string :=
  match u with Some s => s | None => "null"%string end.

Definition truthy (v : option float) : bool :=
  match v with
  | Some x => negb (PrimFloat.eqb x 0 || PrimFloat.is_nan x)
  | None => false
  end.

(** A handler leaves the client in some state and either returns or throws. *)
Definition Handler := t -> Result unit * t.

(** *** Payloads of the server's events *)

Record JoinData := mkJoin
  { join_state : GameState;
    join_game_id : Z;
    join_last_hash : string;
    join_elapsed : Z;
    join_created : float;
    join_username : option string;
    join_balance_satoshis : option float;
    join_player_info : gmap string Player.t;
    join_joined : list string }.

Record StartingData := mkStarting { starting_game_id : Z; time_till_start : float }.

Record CrashData := mkCrash
  { crash_forced : bool;
    crash_elapsed : Z;
    game_crash : float;
    bonuses : list (string * float);
    hash : string }.

Record BetData := mkBet { bet_username : string; bet_amount : float; bet_has_index : bool }.

Record CashedOutData := mkCashedOut { cashed_username : string; cashed_stopped_at : float }.

Record TickDiff := mkDiff { lower : option Z; upper : option Z }.

(** A tick that [estimateNextTick] makes up; its elapsed time is an integer
    or NaN. *)
Record TickEstimate := mkEstimate
  { est_elapsed : JS.int_or_nan; est_growth : float; est_micro : option float }.

Record NextTick := mkNext { next_lower : TickEstimate; next_upper : TickEstimate }.

Record GameInfo := mkInfo
  { info_elapsed : float;
    info_game_id : Z;
    info_server_seed_hash : option string;
    info_player_info : gmap string Player.t;
    info_state : GameState;
    info_ticks : list Tick.t;
    info_started : float;
    info_micro_time : option float;
    info_game_crash : option float;
    info_server_seed : option string;
    info_verified : option Verified }.

(** *** Queries on the tick history *)

Definition tick0 : Tick.t :=
  {| Tick.elapsed := 0; Tick.growth := 100; Tick.micro := Some 0%float |}.

Definition getLastTick (c : t) : Result Tick.t :=
  match game c with
  | None => Throw TypeError
  | Some g =>
      if 0 <? Z.of_nat (List.length (Game.ticks g))
      then Ok (List.last (Game.ticks g) tick0) (* _.last *)
      else Ok tick0
  end.

(** [this.tickModel.evaluate(elapsed)] is called and its value dropped: the
    method has no [return]. *)
Definition elapsedToMicro (c : t) (elapsed : float) : Result (option float) :=
  match tickModel c with
  | None => Throw TypeError
  | Some m => let _ := LinearModel.evaluate m elapsed in Ok None
  end.

(** The differences [ticks[i].elapsed - ticks[i-1].elapsed], [i >= 1]. *)
Fixpoint diffs_of (ticks : list Tick.t) : list Z :=
  match ticks with
  | a :: (b :: _) as r => (Tick.elapsed b - Tick.elapsed a) :: diffs_of r
  | _ => []
  end.

(** [diffs[x]] for a Number [x]: an element when [x] is an index in range,
    [undefined] otherwise. *)
Definition at_index (l : list Z) (x : float) : option Z :=
  match JS.number_to_Z x with
  | Some i => if 0 <=? i then l !! Z.to_nat i else None
  | None => None
  end.

Definition percentile_index (q : float) (len : nat) : float :=
  JS.Math_floor (q * JS.Z_to_number (Z.of_nat len))%float.

Definition estimateTickTimeDiff (c : t) : Result TickDiff :=
  match game c with
  | None => Throw TypeError
  | Some g =>
      let ticks := Game.ticks g in
      match ticks with
      | [] | [_] => Ok {| lower := Some 0; upper := Some 0 |}
      | [k0; k1] =>
          let d := Tick.elapsed k1 - Tick.elapsed k0 in
          Ok {| lower := Some d; upper := Some d |}
      | [k0; k1; k2] =>
          let t1 := Tick.elapsed k1 - Tick.elapsed k0 in
          let t2 := Tick.elapsed k2 - Tick.elapsed k1 in
          Ok {| lower := Some (Z.min t1 t2); upper := Some (Z.max t1 t2) |}
      | _ =>
          let diffs := merge_sort Z.le (diffs_of ticks) in
          Ok {| lower := at_index diffs (percentile_index 0.05 (List.length diffs));
                upper := at_index diffs (percentile_index 0.95 (List.length diffs)) |}
      end
  end.

Section Methods.

Variable Math_pow : float -> float -> float.

Definition growthFunc (ms : JS.int_or_nan) : float :=
  Lib.growthFunc Math_pow (JS.to_number ms).

(** [last.elapsed + tickdiff.lower]: [undefined] makes the sum NaN;
    [Math.floor] leaves an integer or NaN as it is. *)
Definition plus_bound (elapsed : Z) (bound : option Z) : JS.int_or_nan :=
  JS.add (Some elapsed) bound.

Definition estimateNextTick (c : t) : Result NextTick :=
  match getLastTick c with
  | Throw e => Throw e
  | Ok last =>
      match estimateTickTimeDiff c with
      | Throw e => Throw e
      | Ok tickdiff =>
          let lower_elapsed := plus_bound (Tick.elapsed last) (lower tickdiff) in
          match elapsedToMicro c (JS.to_number lower_elapsed) with
          | Throw e => Throw e
          | Ok lower_micro =>
              let lower_tickInfo :=
                {| est_elapsed := lower_elapsed;
                   est_growth := growthFunc lower_elapsed;
                   est_micro := lower_micro |} in
              let upper_elapsed := plus_bound (Tick.elapsed last) (upper tickdiff) in
              match elapsedToMicro c (JS.to_number upper_elapsed) with
              | Throw e => Throw e
              | Ok upper_micro =>
                  Ok {| next_lower := lower_tickInfo;
                        next_upper :=
                          {| est_elapsed := upper_elapsed;
                             est_growth := growthFunc upper_elapsed;
                             est_micro := upper_micro |} |}
              end
          end
      end
  end.

(** *** The round-end check *)

(** [diff === 0 || cp > 1e6 && diff < 0.08 ? "ok" : "scam"], with
    [diff = Math.abs(cp - this.game.crashPoint)]. *)
Definition verdict (cp : float) (reported : option float) : Verified :=
  let diff := JS.Math_abs (cp - JS.of_undefined reported)%float in
  if PrimFloat.eqb diff 0 || (PrimFloat.ltb 1e6 cp && PrimFloat.ltb diff 0.08)
  then ok else scam.

Definition getGameInfo (clock : Clock) (c : t) : Result GameInfo :=
  match game c with
  | None => Throw TypeError
  | Some g =>
      let gameInfo crash seed verified :=
        {| info_elapsed := (date_now clock - Game.startTime g)%float;
           info_game_id := Game.id g;
           info_server_seed_hash := Game.serverSeedHash g;
           info_player_info := Game.players g;
           info_state := Game.state g;
           info_ticks := Game.ticks g;
           info_started := Game.startTime g;
           info_micro_time := Game.microStartTime g;
           info_game_crash := crash;
           info_server_seed := seed;
           info_verified := verified |} in
      if GameState_eqb (Game.state g) ENDED then
        match Game.serverSeed g with
        | None => Throw AssertionError (* crashPoint wants a string *)
        | Some seed =>
            let cp := Lib.crashPoint seed in
            Ok (gameInfo (Game.crashPoint g) (Some seed)
                         (Some (verdict cp (Game.crashPoint g))))
        end
      else Ok (gameInfo None None None)
  end.

(** *** Handlers of the server's events *)

Definition same_user (u : option string) (name : string) : bool :=
  match u with Some s => String.eqb s name | None => false end.

Definition onJoin (clock : Clock) (data : JoinData) : Handler := fun c =>
  (* game.players is data.player_info itself: the joined names land in both *)
  let players :=
    List.fold_left (fun m name => Obj.set name Player.empty m)
                   (join_joined data) (join_player_info data) in
  let g :=
    Game.mk (join_game_id data) (Some (join_last_hash data)) players
            (join_state data) (join_created data) None [] None None None None in
  let '(g, model) :=
    if GameState_eqb (join_state data) IN_PROGRESS then
      let microStartTime := (join_created data * 1000)%float in
      let tickInfo :=
        {| Tick.elapsed := join_elapsed data;
           Tick.growth := growthFunc (Some (join_elapsed data));
           Tick.micro := Some (microtime_now clock - microStartTime)%float |} in
      (Game.set_ticks [tickInfo] (Game.set_microStartTime (Some microStartTime) g),
       Some (LinearModel.add (JS.Z_to_number (join_elapsed data))
                             (microtime_now clock - microStartTime)%float
                             (LinearModel.add 0 0 LinearModel.new)))
    else (g, tickModel c) in
  let userState :=
    match Obj.get (prototype c) players (key_of (join_username data)) with
    | None => WATCHING
    | Some p =>
        if truthy (Player.stopped_at p) then CASHEDOUT
        else if GameState_eqb (join_state data) ENDED then CRASHED
        else PLAYING
    end in
  (Ok tt,
   mk (Some userState) (Some (join_last_hash data)) (join_username data)
      (join_balance_satoshis data) (Some g) model (prototype c)).

Definition onGameStarting (clock : Clock) (data : StartingData) : Handler := fun c =>
  let g :=
    Game.mk (starting_game_id data)
            (* The server seed hash is always the seed of the previous game. *)
            (lastServerSeed c) ∅ STARTING
            (date_now clock + time_till_start data)%float
            (Some (microtime_now clock + 1000 * time_till_start data)%float)
            [] None None None None in
  (Ok tt, set_userState (Some WATCHING) (set_game (Some g) c)).

(** The loop over [bets] in [onGameStarted], in the order [for ... in]
    gives the names: the balance and the players as a turn that throws
    leaves them, the earlier turns staying. *)
Fixpoint started_bets (user : option string) (bets : list (string * float))
    (balance : option float) (players : gmap string Player.t)
    : Result unit * (option float * gmap string Player.t) :=
  match bets with
  | [] => (Ok tt, (balance, players))
  | (name, amount) :: rest =>
      let balance :=
        if same_user user name then Some (JS.of_null balance - amount)%float
        else balance in
      (* TODO in the source: simplify after server upgrade *)
      match Obj.hasOwnProperty players name with
      | Throw e => (Throw e, (balance, players))
      | Ok true =>
          started_bets user rest balance (alter (Player.set_bet amount) name players)
      | Ok false =>
          started_bets user rest balance
            (Obj.set name (Player.set_bet amount Player.empty) players)
      end
  end.

Definition onGameStarted (clock : Clock) (bets : list (string * float)) : Handler := fun c =>
  match game c with
  | None => (Throw TypeError, c)
  | Some g =>
      let g := Game.started (date_now clock) (microtime_now clock) g in
      let '(r, (balance, players)) :=
        started_bets (username c) bets (balance c) (Game.players g) in
      let g := Game.set_players players g in
      match r with
      | Throw e => (Throw e, set_balance balance (set_game (Some g) c))
      | Ok _ =>
          let g := Game.set_ticks (Game.ticks g ++ [tick0]) g in
          let model := LinearModel.add 0 0 LinearModel.new in
          let userState :=
            if strict_eq (userState c) PLACED then Some PLAYING
            else if strict_eq (userState c) PLACING then Some WATCHING
            else userState c in
          (Ok tt,
           mk userState (lastServerSeed c) (username c) balance (Some g) (Some model)
              (prototype c))
      end
  end.

Definition onGameTick (clock : Clock) (elapsed : Z) : Handler := fun c =>
  let at_ := growthFunc (Some elapsed) in
  match getLastTick c, game c with
  | Ok previousTick, Some g =>
      let micro := (microtime_now clock - JS.of_null (Game.microStartTime g))%float in
      let tickInfo :=
        {| Tick.elapsed := elapsed; Tick.growth := at_; Tick.micro := Some micro |} in
      let c := set_game (Some (Game.set_ticks (Game.ticks g ++ [tickInfo]) g)) c in
      match tickModel c with
      | None => (Throw TypeError, c)
      | Some m =>
          let c := set_tickModel (Some (LinearModel.add (JS.Z_to_number elapsed) micro m)) c in
          match estimateNextTick c with
          | Throw e => (Throw e, c)
          | Ok next => (Ok tt, c)
          end
      end
  | Throw e, _ => (Throw e, c)
  | _, None => (Throw TypeError, c)
  end.

(** The loop over [data.bonuses] in [onGameCrash]: a name under which
    [players] has nothing, own or inherited, stops it with an exception, the
    earlier bonuses staying. *)
Fixpoint add_bonuses (bs : list (string * float)) (proto players : gmap string Player.t)
    : Result unit * (gmap string Player.t * gmap string Player.t) :=
  match bs with
  | [] => (Ok tt, (proto, players))
  | (playerName, amount) :: rest =>
      match Obj.get proto players playerName with
      | None => (Throw AssertionError, (proto, players)) (* console.assert *)
      | Some _ =>
          let '(proto, players) :=
            Obj.update (Player.set_bonus amount) playerName proto players in
          add_bonuses rest proto players
      end
  end.

Definition onGameCrash (clock : Clock) (data : CrashData) : Handler := fun c =>
  match game c with
  | None => (Throw TypeError, c)
  | Some g =>
      let c := set_lastServerSeed (Some (hash data)) c in
      let g := Game.crashed (hash data) (game_crash data) (crash_forced data) g in
      (* Add the bonus to each user that wins it *)
      let '(r, (proto, players)) :=
        add_bonuses (bonuses data) (prototype c) (Game.players g) in
      let c := set_prototype proto (set_game (Some (Game.set_players players g)) c) in
      match r with
      | Throw e => (Throw e, c)
      | Ok _ =>
          let c :=
            if strict_eq (userState c) PLAYING || strict_eq (state c) CASHINGOUT
            then set_userState (Some CRASHED) c
            else c in
          match getGameInfo clock c with
          | Throw e => (Throw e, c)
          | Ok gameInfo => (Ok tt, c)
          end
      end
  end.

Definition onPlayerBet (data : BetData) : Handler := fun c =>
  match game c with
  | None => (Throw TypeError, c)
  | Some g =>
      let c :=
        set_game
          (Some (Game.set_players
                   (Obj.set (bet_username data) (Player.set_bet (bet_amount data) Player.empty)
                      (Game.players g)) g)) c in
      if same_user (username c) (bet_username data) then
        let c := set_userState (Some PLACED) c in
        if bet_has_index data then (Ok tt, c)
        else (Ok tt, set_balance (Some (JS.of_null (balance c) - bet_amount data)%float) c)
      else (Ok tt, c)
  end.

Definition onCashedOut (data : CashedOutData) : Handler := fun c =>
  match game c with
  | None => (Throw TypeError, c)
  | Some g =>
      match Obj.get (prototype c) (Game.players g) (cashed_username data) with
      | None => (Throw AssertionError, c) (* console.assert *)
      | Some player =>
          let '(proto, players) :=
            Obj.update (Player.set_stopped_at (cashed_stopped_at data))
                       (cashed_username data) (prototype c) (Game.players g) in
          let c := set_prototype proto (set_game (Some (Game.set_players players g)) c) in
          if same_user (username c) (cashed_username data) then
            let won := (JS.of_undefined (Player.bet player) * cashed_stopped_at data / 100)%float in
            (Ok tt,
             set_userState (Some CASHEDOUT)
               (set_balance (Some (JS.of_null (balance c) + won)%float) c))
          else (Ok tt, c)
      end
  end.

(** *** Actions of the local user (the request sent to the server is not
    part of the state) *)

Definition doBet (c : t) : t :=
  if negb (strict_eq (userState c) WATCHING) then c
  else set_userState (Some PLACING) c.

Definition doCashout (c : t) : t :=
  if negb (strict_eq (userState c) PLAYING) &&
     negb (strict_eq (userState c) PLACING) &&
     negb (strict_eq (userState c) PLACED)
  then c
  else set_userState (Some CASHINGOUT) c.

(** *** The events the constructor binds, and a run of them

    An exception that escapes a handler is not caught anywhere: the run
    ends with it. *)

Inductive Event :=
| Ev_game_starting (data : StartingData)
| Ev_game_started (bets : list (string * float))
| Ev_game_tick (elapsed : Z)
| Ev_game_crash (data : CrashData)
| Ev_player_bet (data : BetData)
| Ev_cashed_out (data : CashedOutData).

Definition on (clock : Clock) (ev : Event) : Handler :=
  match ev with
  | Ev_game_starting data => onGameStarting clock data
  | Ev_game_started bets => onGameStarted clock bets
  | Ev_game_tick elapsed => onGameTick clock elapsed
  | Ev_game_crash data => onGameCrash clock data
  | Ev_player_bet data => onPlayerBet data
  | Ev_cashed_out data => onCashedOut data
  end.

Fixpoint run_events (evs : list (Clock * Event)) (c : t) : Result unit * t :=
  match evs with
  | [] => (Ok tt, c)
  | (clock, ev) :: rest =>
      match on clock ev c with
      | (Ok _, c') => run_events rest c'
      | (Throw e, c') => (Throw e, c')
      end
  end.

End Methods.

(** [this.startTime]: like [this.state], a property of the client that
    nothing assigns (the round's start time is [this.game.startTime]). *)
Definition startTime (c : t) : option float := None.

Definition timeTillStart (clock : Clock) (c : t) : float :=
  (JS.of_undefined (startTime c) - date_now clock)%float.

(** Whether an event names a user: as a key of [bets], or as the
    [username] of a bet or of a cash-out. *)
Definition names_user (u : option string) (ev : Event) : bool :=
  match ev with
  | Ev_game_started bets => List.existsb (fun b => same_user u (fst b)) bets
  | Ev_player_bet data => same_user u (bet_username data)
  | Ev_cashed_out data => same_user u (cashed_username data)
  | _ => false
  end.

End Client.

(** ** The crash point as the specification words it *)

Module Spec.

(** The value of a hexadecimal digit. *)
Definition nibble (c : ascii) : Z :=
  match JS.hex_digit c with Some d => d | None => 0 end.

(** [acc = (acc*16 + nibble) mod m], over the digits from the left. *)
Definition fold_mod (m : Z) (digest : string) : Z :=
  List.fold_left (fun acc c => (acc * 16 + nibble c) mod m)
                 (list_ascii_of_string digest) 0.

(** The integer that a run of hexadecimal digits writes. *)
Definition hex_value (digits : list ascii) : Z :=
  List.fold_left (fun acc c => acc * 16 + nibble c) digits 0.

Definition first_13 (digest : string) : list ascii :=
  List.firstn 13 (list_ascii_of_string digest).

(** A lower-case hexadecimal digit, as [digest('hex')] writes them. *)
Definition lower_hex (c : ascii) : bool :=
  let n := Z.of_N (N_of_ascii c) in
  ((48 <=? n) && (n <=? 57)) || ((97 <=? n) && (n <=? 102)).

End Spec.

(** ** Sessions used as examples *)

Module Scenario.

Definition clock : Clock :=
  {| date_now := 1422052000000; microtime_now := 1422052000000000 |}.

(** A seed whose crash point is 172085350 (1720853.50x). *)
Definition big_seed : string :=
  "60f4d3dcf620cd5353e36b5408f77a253eeec91046a172d33f96288f2d3387c3".

Definition run (h : Client.Handler) (c : Client.t) : Client.t := snd (h c).

(** A host's [Math.pow] for the examples (the properties below hold for
    every such function, the examples need one): for base [Math.E], the
    exponential by its Taylor polynomial on [y / 1024], squared ten times. *)
Fixpoint exp_horner (terms : nat) (k x : float) : float :=
  match terms with
  | O => 1%float
  | S n => (1 + x / k * exp_horner n (k + 1) x)%float
  end.

Definition host_exp (y : float) : float :=
  Nat.iter 10 (fun v => (v * v)%float) (exp_horner 16 1 (y / 1024)%float).

Definition host_pow (x y : float) : float :=
  if PrimFloat.eqb x Lib.Math_E then host_exp y else nan.

(** Shiba joins between two rounds, with a balance and no bet. *)
Definition joined : Client.t :=
  run (Client.onJoin host_pow clock
         (Client.mkJoin ENDED 1000019
            "20c8a18be0fb4d4529b661938350bfbea3ed822c4dc83e764a079efa14ec9af9"
            0 1422051990000 (Some "Shiba"%string) (Some 100000%float) ∅ []))
      Client.new.

Definition starting : Client.t :=
  run (Client.onGameStarting clock (Client.mkStarting 1000020 5000)) joined.

(** The bet is sent and confirmed before the round starts ... *)
Definition placed : Client.t :=
  run (Client.onPlayerBet (Client.mkBet "Shiba" 1000 false)) (Client.doBet starting).

Definition playing : Client.t :=
  run (Client.onGameStarted clock [("Shiba"%string, 1000%float)]) placed.

(** The same, a player named [hasOwnProperty] having bet before. *)
Definition shadowed : Client.t :=
  run (Client.onPlayerBet (Client.mkBet "Shiba" 1000 false))
      (run (Client.onPlayerBet (Client.mkBet "hasOwnProperty" 500 false))
           (Client.doBet starting)).

(** ... or is sent too late and the round starts without it. *)
Definition late : Client.t :=
  run (Client.onGameStarted clock []) (Client.doBet starting).

Definition cashingout : Client.t := Client.doCashout playing.

Definition crash (reported : float) : Client.CrashData :=
  Client.mkCrash false 239100 reported [] big_seed.

(** A round whose ticks came 250, 250, 260, 240 and 255 ms apart. *)
Definition ticking : Client.t :=
  List.fold_left (fun c elapsed => run (Client.onGameTick host_pow clock elapsed) c)
                 [250; 500; 760; 1000; 1255] playing.

End Scenario.

(** The model after [add] was called with each of [pts] in turn. *)
Definition model_after (pts : list (float * float)) : LinearModel.t :=
  List.fold_left (fun m p => LinearModel.add (fst p) (snd p) m) pts LinearModel.new.

(** [sx2] is missing or NaN: what the constructor leaves and [add] keeps. *)
Definition sx2_lost (m : LinearModel.t) : Prop :=
  LinearModel.sx2 m = None \/ LinearModel.sx2 m = Some nan.

(** A hexadecimal digit of either case, as [parseInt(d, 16)] reads one. *)
Definition is_hex (c : ascii) : bool :=
  match JS.hex_digit c with Some _ => true | None => false end.

(** A word of [formatTimeDiff]: the number and its unit. *)
Definition shown (unit : Z * string) : string :=
  (JS.decimal (fst unit) ++ snd unit)%string.

(** * Properties *)

(** ** The digest is a run of lower-case hexadecimal digits *)

Ltac each_ascii c := destruct c as [[] [] [] [] [] [] [] []].

Lemma lower_hex_digit (c : ascii) :
  Spec.lower_hex c = true ->
  JS.hex_digit c = Some (Spec.nibble c) /\ 0 <= Spec.nibble c < 16 /\
  JS.is_space c = false.
Proof.
  each_ascii c; vm_compute; intros H; try discriminate H;
    repeat split; congruence.
Qed.

Lemma hex_char_lower (n : Z) : Spec.lower_hex (Crypto.hex_char n) = true.
Proof.
  unfold Crypto.hex_char.
  pose proof (Z.mod_pos_bound n 16 ltac:(lia)) as Hk.
  remember (n mod 16) as k eqn:Ek. clear Ek.
  assert (Hc : k = 0 \/ k = 1 \/ k = 2 \/ k = 3 \/ k = 4 \/ k = 5 \/ k = 6 \/ k = 7 \/
               k = 8 \/ k = 9 \/ k = 10 \/ k = 11 \/ k = 12 \/ k = 13 \/ k = 14 \/ k = 15)
    by lia.
  repeat (destruct Hc as [-> | Hc]; [reflexivity |]). subst k. reflexivity.
Qed.

Lemma hex_all_lower (bs : list Z) :
  Forall (fun c => Spec.lower_hex c = true) (list_ascii_of_string (Crypto.hex bs)).
Proof.
  induction bs as [| b bs IH]; simpl.
  - constructor.
  - repeat constructor; auto using hex_char_lower.
Qed.

(** ** [parseInt] and the digit loop on such a run *)

Lemma parseInt16_head (c : ascii) (r : string) :
  Spec.lower_hex c = true ->
  JS.parseInt16 (String c r) = JS.hex_run None (JS.strip_0x (String c r)).
Proof.
  intros H. unfold JS.parseInt16.
  destruct (lower_hex_digit c H) as (_ & _ & Hs).
  cbn [JS.skip_space]. rewrite Hs.
  each_ascii c; first [discriminate H | reflexivity].
Qed.

Lemma strip_0x_hex (c : ascii) (r : string) :
  Spec.lower_hex c = true ->
  Forall (fun c => Spec.lower_hex c = true) (list_ascii_of_string r) ->
  JS.strip_0x (String c r) = String c r.
Proof.
  intros H Hr.
  each_ascii c; try reflexivity; try discriminate H.
  destruct r as [| c2 r2]; [reflexivity |].
  inversion_clear Hr as [| ? ? H2 _].
  each_ascii c2; first [discriminate H2 | reflexivity].
Qed.

Lemma hex_run_value (s : string) (a : Z) :
  Forall (fun c => Spec.lower_hex c = true) (list_ascii_of_string s) ->
  JS.hex_run (Some a) s =
  Some (List.fold_left (fun acc c => acc * 16 + Spec.nibble c) (list_ascii_of_string s) a).
Proof.
  revert a. induction s as [| c s IH]; intros a H; simpl.
  - reflexivity.
  - inversion_clear H as [| ? ? Hc Hs].
    destruct (lower_hex_digit c Hc) as (-> & _ & _). now apply IH.
Qed.

Lemma parseInt16_hex (c : ascii) (r : string) :
  Forall (fun c => Spec.lower_hex c = true) (list_ascii_of_string (String c r)) ->
  JS.parseInt16 (String c r) = Some (Spec.hex_value (list_ascii_of_string (String c r))).
Proof.
  intros H. inversion H as [| ? ? Hc Hr]; subst.
  rewrite parseInt16_head, strip_0x_hex by assumption.
  unfold Spec.hex_value. simpl.
  destruct (lower_hex_digit c Hc) as (-> & _ & _).
  now rewrite hex_run_value.
Qed.

Lemma shl_small (r : Z) : 0 <= r < 101 -> JS.shl (Some r) 4 = Some (r * 16).
Proof.
  intros H. unfold JS.shl, JS.shl32, JS.to_int32. f_equal.
  change (4 mod 32) with 4.
  rewrite (Z.mod_small (r + 2 ^ 31)) by lia.
  replace (r + 2 ^ 31 - 2 ^ 31) with r by lia.
  rewrite Z.shiftl_mul_pow2 by lia. change (2 ^ 4) with 16.
  rewrite Z.mod_small by lia. lia.
Qed.

Lemma digit_loop_fold (l : list ascii) (r : Z) :
  Forall (fun c => Spec.lower_hex c = true) l -> 0 <= r < 101 ->
  List.fold_left
    (fun r d => JS.rem (JS.add (JS.shl r 4) (JS.parseInt16 d)) 101)
    (List.map (fun c => String c EmptyString) l) (Some r)
  = Some (List.fold_left (fun acc c => (acc * 16 + Spec.nibble c) mod 101) l r).
Proof.
  intros H. revert r. induction H as [| c l Hc Hl IH]; intros r Hr;
    cbn [List.fold_left List.map].
  - reflexivity.
  - rewrite shl_small by assumption.
    rewrite parseInt16_head, strip_0x_hex by (assumption || constructor).
    destruct (lower_hex_digit c Hc) as (Hd & Hn & _).
    cbn [JS.hex_run]. rewrite Hd. cbn [JS.add JS.rem].
    change (101 =? 0) with false. cbn iota.
    rewrite Z.rem_mod_nonneg by lia.
    apply IH. apply Z.mod_pos_bound. lia.
Qed.

Lemma divisible_fold (digest : string) :
  Forall (fun c => Spec.lower_hex c = true) (list_ascii_of_string digest) ->
  Lib.divisible digest 101 = (Spec.fold_mod 101 digest =? 0).
Proof.
  intros H. unfold Lib.divisible, JS.split_chars, Spec.fold_mod.
  rewrite digit_loop_fold by (assumption || lia).
  now destruct (List.fold_left _ _ 0) as [| p | p].
Qed.

Lemma slice0_firstn (n : nat) (s : string) :
  list_ascii_of_string (JS.slice0 n s) = List.firstn n (list_ascii_of_string s).
Proof.
  revert s. induction n as [| n IH]; intros [| c s]; simpl; try reflexivity.
  now rewrite IH.
Qed.

Lemma hex_value_bound (l : list ascii) (a : Z) :
  Forall (fun c => Spec.lower_hex c = true) l -> 0 <= a ->
  0 <= List.fold_left (fun acc c => acc * 16 + Spec.nibble c) l a
    < (a + 1) * 16 ^ Z.of_nat (List.length l).
Proof.
  intros H. revert a. induction H as [| c l Hc Hl IH]; intros a Ha.
  - simpl. lia.
  - cbn [List.fold_left List.length].
    destruct (lower_hex_digit c Hc) as (_ & Hn & _).
    specialize (IH (a * 16 + Spec.nibble c) ltac:(lia)).
    rewrite Nat2Z.inj_succ, Z.pow_succ_r by lia.
    split; [lia |].
    eapply Z.lt_le_trans; [apply IH |].
    assert (0 < 16 ^ Z.of_nat (List.length l)) by (apply Z.pow_pos_nonneg; lia).
    nia.
Qed.

Lemma first_13_bound (digest : string) :
  Forall (fun c => Spec.lower_hex c = true) (list_ascii_of_string digest) ->
  0 <= Spec.hex_value (Spec.first_13 digest) < 2 ^ 52.
Proof.
  intros H. unfold Spec.hex_value, Spec.first_13.
  assert (Hf : Forall (fun c => Spec.lower_hex c = true)
                      (List.firstn 13 (list_ascii_of_string digest))).
  { now apply Forall_take. }
  pose proof (hex_value_bound _ 0 Hf ltac:(lia)) as Hb.
  pose proof (List.firstn_le_length 13 (list_ascii_of_string digest)) as Hl.
  split; [lia |].
  eapply Z.lt_le_trans; [apply Hb |].
  change (2 ^ 52) with (16 ^ 13). rewrite Z.mul_1_l.
  apply Z.pow_le_mono_r; lia.
Qed.

(** C1.  For every server seed, [crashPoint] computes the hex digest of
    HMAC-SHA256 keyed by the seed over the client seed; it is 0 when folding
    the digits as [acc = (acc*16 + nibble) mod 101] ends at 0, and otherwise
    [floor((100e - h)/(e - h))] for [e = 2^52] and [h] the integer written by
    the first 13 digits (so [0 <= h < 2^52], which a Number holds exactly),
    evaluated in binary64 arithmetic as the source does. *)
Theorem crashPoint_spec (serverSeed : string) :
  let digest := Crypto.createHmac_sha256_hex serverSeed Lib.clientSeed in
  let h := Spec.hex_value (Spec.first_13 digest) in
  0 <= h < 2 ^ 52 /\
  Lib.crashPoint serverSeed =
    if Spec.fold_mod 101 digest =? 0 then 0%float
    else JS.Math_floor
           ((100 * JS.Z_to_number (2 ^ 52) - JS.Z_to_number h) /
            (JS.Z_to_number (2 ^ 52) - JS.Z_to_number h))%float.
Proof.
  intros digest h.
  assert (H : Forall (fun c => Spec.lower_hex c = true) (list_ascii_of_string digest))
    by apply hex_all_lower.
  split; [now apply first_13_bound |].
  unfold Lib.crashPoint. fold digest.
  rewrite divisible_fold by assumption.
  destruct (Spec.fold_mod 101 digest =? 0) eqn:E; [reflexivity |].
  change (Z.to_nat (52 / 4)) with 13%nat.
  destruct digest as [| c r] eqn:Ed.
  - discriminate E.
  - assert (Hs : Forall (fun c => Spec.lower_hex c = true)
                   (list_ascii_of_string (JS.slice0 13 (String c r)))).
    { rewrite slice0_firstn. now apply Forall_take. }
    change (JS.slice0 13 (String c r))
      with (String c (JS.slice0 12 r)) in *.
    rewrite parseInt16_hex by assumption.
    change (String c (JS.slice0 12 r)) with (JS.slice0 13 (String c r)).
    rewrite slice0_firstn. reflexivity.
Qed.

(** The quotient is the binary64 one.  At [h = 2^52 - 32], which no known
    seed produces, [100e - h] is not a Number and rounds down to [99e]; the
    result is one less than the quotient of the integers. *)
Lemma crash_formula_rounds :
  JS.Math_floor
    ((100 * JS.Z_to_number (2 ^ 52) - JS.Z_to_number (2 ^ 52 - 32)) /
     (JS.Z_to_number (2 ^ 52) - JS.Z_to_number (2 ^ 52 - 32)))%float
  = JS.Z_to_number (99 * 2 ^ 47) /\
  (100 * 2 ^ 52 - (2 ^ 52 - 32)) / (2 ^ 52 - (2 ^ 52 - 32)) = 99 * 2 ^ 47 + 1.
Proof. split; reflexivity. Qed.

(** Test vectors: SHA-256 of [abc] (FIPS 180-4), HMAC with the empty key and
    message, and with a key longer than a block. *)
Example sha256_abc :
  Crypto.hex (Crypto.sha256 (Crypto.bytes_of "abc")) =
  "ba7816bf8f01cfea414140de5dae2223b00361a396177a9cb410ff61f20015ad"%string.
Proof. vm_compute. reflexivity. Qed.

Example hmac_sha256_vectors :
  Crypto.createHmac_sha256_hex "" "" =
    "b613679a0814d9ec772f95d778c35fc5ff1697c493715653c6c712144292c5ad"%string /\
  Crypto.createHmac_sha256_hex (string_of_list_ascii (List.repeat "k"%char 100)) "msg" =
    "bd56a1782c2830e8abc6ed866a57a1230661e650b84c62f7ee3accc5fa5af491"%string.
Proof. split; vm_compute; reflexivity. Qed.

(** Crash points: an instant crash, the seed of the example in
    [onGameCrash], and two more. *)
Example crashPoint_examples :
  Lib.crashPoint "258" = 0%float /\
  Lib.crashPoint "20c8a18be0fb4d4529b661938350bfbea3ed822c4dc83e764a079efa14ec9af9"
    = 1433%float /\
  Lib.crashPoint "abc" = 180%float /\
  Lib.crashPoint "" = 669%float.
Proof. repeat split; vm_compute; reflexivity. Qed.

(** ** The least-squares model: NaN spreads from the first [add] on *)

Ltac nan_case x :=
  apply Prim2SF_inj;
  rewrite ?FloatAxioms.add_spec, ?FloatAxioms.sub_spec, ?FloatAxioms.mul_spec,
    ?FloatAxioms.div_spec;
  change (Prim2SF nan) with S754_nan;
  unfold SF64add, SF64sub, SF64mul, SF64div;
  destruct (Prim2SF x); reflexivity.

Lemma add_nan_l (x : float) : (nan + x)%float = nan.
Proof. nan_case x. Qed.

Lemma sub_nan_l (x : float) : (nan - x)%float = nan.
Proof. nan_case x. Qed.

Lemma sub_nan_r (x : float) : (x - nan)%float = nan.
Proof. nan_case x. Qed.

Lemma mul_nan_l (x : float) : (nan * x)%float = nan.
Proof. nan_case x. Qed.

Lemma mul_nan_r (x : float) : (x * nan)%float = nan.
Proof. nan_case x. Qed.

Lemma div_nan_l (x : float) : (nan / x)%float = nan.
Proof. nan_case x. Qed.

Lemma div_nan_r (x : float) : (x / nan)%float = nan.
Proof. nan_case x. Qed.

Lemma add_loses_fit (x y : float) (m : LinearModel.t) :
  sx2_lost m ->
  LinearModel.sx2 (LinearModel.add x y m) = Some nan /\
  LinearModel.alpha (LinearModel.add x y m) = nan /\
  LinearModel.beta (LinearModel.add x y m) = nan.
Proof.
  intros H. unfold LinearModel.add. cbn.
  assert (E : JS.of_undefined (LinearModel.sx2 m) = nan)
    by (destruct H as [-> | ->]; reflexivity).
  rewrite E, add_nan_l, sub_nan_l, div_nan_r, mul_nan_l, sub_nan_r, div_nan_l.
  repeat split.
Qed.

Lemma n_stays_zero (pts : list (float * float)) (m : LinearModel.t) :
  LinearModel.n
    (List.fold_left (fun m p => LinearModel.add (fst p) (snd p) m) pts m)
  = LinearModel.n m.
Proof.
  revert m. induction pts as [| p pts IH]; intros m; simpl; [reflexivity |].
  now rewrite IH.
Qed.

Lemma fold_add_nan (pts : list (float * float)) (m : LinearModel.t) :
  LinearModel.sx2 m = Some nan -> LinearModel.alpha m = nan -> LinearModel.beta m = nan ->
  let m' := List.fold_left (fun m p => LinearModel.add (fst p) (snd p) m) pts m in
  LinearModel.alpha m' = nan /\ LinearModel.beta m' = nan.
Proof.
  revert m. induction pts as [| p pts IH]; intros m Hs Ha Hb; simpl.
  - now split.
  - destruct (add_loses_fit (fst p) (snd p) m (or_intror Hs)) as (? & ? & ?).
    now apply IH.
Qed.

Lemma evaluate_after_adds (p : float * float) (pts : list (float * float)) (q : float) :
  LinearModel.evaluate (model_after (p :: pts)) q = nan.
Proof.
  unfold model_after. cbn [List.fold_left].
  destruct (add_loses_fit (fst p) (snd p) LinearModel.new (or_introl eq_refl))
    as (Hs & Ha & Hb).
  destruct (fold_add_nan pts _ Hs Ha Hb) as [Ha' Hb'].
  unfold LinearModel.evaluate. rewrite Ha', Hb'. apply add_nan_l.
Qed.

(** C4.  [evaluate] has no guard.  With a single sample, whatever it is, it
    returns NaN for every argument, and with no sample at all it returns
    the number [0 + x*0]; a model never counts its samples ([n] stays 0). *)
Theorem evaluate_unguarded :
  (forall x y q : float,
     LinearModel.evaluate (LinearModel.add x y LinearModel.new) q = nan) /\
  LinearModel.evaluate LinearModel.new 2500 = 0%float /\
  (forall pts, LinearModel.n (model_after pts) = 0%float).
Proof.
  split; [| split].
  - intros x y q. apply (evaluate_after_adds (x, y) [] q).
  - reflexivity.
  - intros pts. apply n_stays_zero.
Qed.

(** C5.  After [add(0,0)] and [add(5000,5100)] on a fresh model,
    [evaluate(2500)] is NaN, not 2550; and so it is after any calls of [add],
    at least one, for every argument. *)
Theorem evaluate_two_points :
  LinearModel.evaluate
    (LinearModel.add 5000 5100 (LinearModel.add 0 0 LinearModel.new)) 2500
  = nan /\
  (forall p pts q, LinearModel.evaluate (model_after (p :: pts)) q = nan).
Proof.
  split.
  - apply (evaluate_after_adds (0, 0)%float [(5000, 5100)%float]).
  - apply evaluate_after_adds.
Qed.

(** ** Growth and duration

    [Math.pow] and [Math.log] are the host's.  At [t = 0] they are pinned:
    on any host whose [Math.pow(x, 0)] is 1 and whose [Math.log(1.01)] is
    the double nearest to the logarithm, the growth is 100 and its duration
    is 166 ms. *)
Lemma duration_growth_0_binary64 (Math_pow : float -> float -> float)
    (Math_log : float -> float) :
  Math_pow Lib.Math_E 0%float = 1%float ->
  Math_log 1.01%float = 0.009950330853168092%float ->
  Lib.growthFunc Math_pow 0 = 100%float /\
  Lib.duration Math_log (Lib.growthFunc Math_pow 0) = 166%float.
Proof.
  intros Hp Hl.
  assert (Hg : Lib.growthFunc Math_pow 0 = 100%float).
  { unfold Lib.growthFunc. cbv zeta.
    change (0.00006 * 0)%float with 0%float. rewrite Hp. reflexivity. }
  split; [exact Hg |].
  rewrite Hg. unfold Lib.duration, Lib.inverseGrowth. cbv zeta.
  change (0.01 * (100 + 1))%float with 1.01%float. rewrite Hl. reflexivity.
Qed.

(** ** The state machine *)

(** The round of a concrete client, by evaluation. *)
Ltac game_of c :=
  let v := eval vm_compute in (Client.game c) in
  match v with Some ?g => g end.

(** One turn of the loop of [onGameStarted] leaves an entry under
    [hasOwnProperty] exactly when there was one or the turn's name is that
    one. *)
Lemma alter_hasOwnProperty (f : Player.t -> Player.t) (name : string)
    (players : gmap string Player.t) :
  players !! "hasOwnProperty"%string = None ->
  alter f name players !! "hasOwnProperty"%string = None.
Proof.
  intros H. destruct (decide (name = "hasOwnProperty"%string)) as [-> | Hne].
  - now rewrite lookup_alter_eq, H.
  - now rewrite lookup_alter_ne.
Qed.

Lemma set_hasOwnProperty (name : string) (entry : Player.t)
    (players : gmap string Player.t) :
  players !! "hasOwnProperty"%string = None ->
  Obj.set name entry players !! "hasOwnProperty"%string
  = if String.eqb name "hasOwnProperty" then Some entry else None.
Proof.
  intros H. unfold Obj.set.
  destruct (String.eqb name "hasOwnProperty") eqn:E.
  - apply String.eqb_eq in E. subst name.
    change (String.eqb "hasOwnProperty" "__proto__") with false. cbn [andb].
    apply lookup_insert_eq.
  - apply String.eqb_neq in E.
    destruct (_ && _); [exact H |].
    rewrite lookup_insert_ne by congruence. exact H.
Qed.

(** The loop runs to its end when no turn meets an entry under
    [hasOwnProperty] ... *)
Lemma started_bets_returns (user : option string) (bets : list (string * float))
    (balance : option float) (players : gmap string Player.t) :
  players !! "hasOwnProperty"%string = None ->
  ~ List.In "hasOwnProperty"%string (List.removelast (List.map fst bets)) ->
  fst (Client.started_bets user bets balance players) = Ok tt.
Proof.
  revert balance players.
  induction bets as [| [name amount] rest IH]; intros balance players Hp Hn.
  - reflexivity.
  - cbn [Client.started_bets]. unfold Obj.hasOwnProperty. rewrite Hp.
    destruct rest as [| next rest].
    + destruct (Obj.has players name); reflexivity.
    + cbn [List.map List.removelast fst] in Hn.
      assert (Hne : String.eqb name "hasOwnProperty" = false).
      { apply String.eqb_neq. intros ->. apply Hn. now left. }
      assert (Hr : ~ List.In "hasOwnProperty"%string
                     (List.removelast (List.map fst (next :: rest)))).
      { intros Hi. apply Hn. now right. }
      destruct (Obj.has players name); apply IH; try assumption.
      * now apply alter_hasOwnProperty.
      * now rewrite set_hasOwnProperty, Hne.
Qed.

(** ... and is cut short by the first turn that does. *)
Lemma started_bets_throws (user : option string) (bets : list (string * float))
    (balance : option float) (players : gmap string Player.t) :
  (is_Some (players !! "hasOwnProperty"%string) /\ bets <> []) \/
  List.In "hasOwnProperty"%string (List.removelast (List.map fst bets)) ->
  fst (Client.started_bets user bets balance players) = Throw TypeError.
Proof.
  revert balance players.
  induction bets as [| [name amount] rest IH]; intros balance players H.
  - destruct H as [[_ H] | []]. congruence.
  - cbn [Client.started_bets]. unfold Obj.hasOwnProperty.
    destruct (players !! "hasOwnProperty"%string) as [p |] eqn:Hp; [reflexivity |].
    destruct H as [[[p Hs] _] | Hi]; [congruence |].
    destruct rest as [| next rest]; [destruct Hi |].
    cbn [List.map List.removelast fst] in Hi. destruct Hi as [Hi | Hi].
    + subst name. unfold Obj.has at 1. rewrite Hp.
      apply IH. left. split; [| discriminate].
      rewrite set_hasOwnProperty by assumption. cbn. eauto.
    + destruct (Obj.has players name); apply IH; now right.
Qed.

(** C6.  With a round in place, [game_started] takes the local state from
    PLACED to PLAYING, from PLACING to WATCHING, and leaves any other as it
    was, provided the handler reaches these lines.  It does not when the
    players hold one named [hasOwnProperty] (the round does and there is a
    bet, or a bet other than the last is under that name): the call
    [this.game.players.hasOwnProperty(username)] then finds the player's
    entry instead of the method and throws, and the local state stays what
    it was, PLACED and PLACING included. *)
Theorem onGameStarted_userState (clock : Clock) (bets : list (string * float))
    (c : Client.t) (g : Game.t) :
  Client.game c = Some g ->
  let shadowed :=
    (is_Some (Game.players g !! "hasOwnProperty"%string) /\ bets <> []) \/
    List.In "hasOwnProperty"%string (List.removelast (List.map fst bets)) in
  (~ shadowed ->
   exists c', Client.onGameStarted clock bets c = (Ok tt, c') /\
     (Client.userState c = Some PLACED -> Client.userState c' = Some PLAYING) /\
     (Client.userState c = Some PLACING -> Client.userState c' = Some WATCHING) /\
     (Client.userState c <> Some PLACED -> Client.userState c <> Some PLACING ->
      Client.userState c' = Client.userState c)) /\
  (shadowed ->
   exists c', Client.onGameStarted clock bets c = (Throw TypeError, c') /\
     Client.userState c' = Client.userState c).
Proof.
  intros Hg shadowed. unfold Client.onGameStarted. rewrite Hg.
  cbn [Game.started Game.players]. split; intros H.
  - assert (Hr : fst (Client.started_bets (Client.username c) bets (Client.balance c)
                        (Game.players g)) = Ok tt).
    { destruct bets as [| b bets]; [reflexivity |].
      apply started_bets_returns.
      - destruct (Game.players g !! "hasOwnProperty"%string) eqn:E; [| reflexivity].
        exfalso. apply H. left. split; [eauto | discriminate].
      - intros Hi. apply H. now right. }
    destruct (Client.started_bets _ _ _ _) as [r [balance players]].
    cbn [fst] in Hr. subst r.
    eexists. split; [reflexivity |]. cbn [Client.userState].
    destruct (Client.userState c) as [[] |]; cbn; repeat split; congruence.
  - pose proof (started_bets_throws (Client.username c) bets (Client.balance c)
                  (Game.players g) H) as Hr.
    destruct (Client.started_bets _ _ _ _) as [r [balance players]].
    cbn [fst] in Hr. subst r.
    eexists. split; reflexivity.
Qed.

(** A session the second half applies to: a player named [hasOwnProperty]
    bets, Shiba's bet is confirmed, and the round starts with both bets. *)
Lemma onGameStarted_userState_witness :
  Client.userState Scenario.shadowed = Some PLACED /\
  exists c',
    Client.onGameStarted Scenario.clock
      [("hasOwnProperty"%string, 500%float); ("Shiba"%string, 1000%float)]
      Scenario.shadowed = (Throw TypeError, c') /\
    Client.userState c' = Some PLACED.
Proof.
  split; [reflexivity |].
  let g := game_of Scenario.shadowed in
  refine (proj2 (onGameStarted_userState Scenario.clock _ Scenario.shadowed g _) _);
    [vm_compute; reflexivity |].
  left. split; [eexists; vm_compute; reflexivity | discriminate].
Defined.

(** The same session with the two bets in the other order: the last turn
    of the loop is the one that stores the entry, and the handler returns. *)
Lemma onGameStarted_last_bet :
  exists c',
    Client.onGameStarted Scenario.clock
      [("Shiba"%string, 1000%float); ("hasOwnProperty"%string, 500%float)]
      (Scenario.run (Client.onPlayerBet (Client.mkBet "Shiba" 1000 false))
                    (Client.doBet Scenario.starting)) = (Ok tt, c') /\
    Client.userState c' = Some PLAYING.
Proof. eexists. split; [vm_compute; reflexivity | reflexivity]. Qed.

(** Writing a property on [o[name]] takes nothing away from what the
    object has under any name. *)
Lemma update_get (f : Player.t -> Player.t) (name n : string)
    (proto players : gmap string Player.t) :
  is_Some (Obj.get proto players n) ->
  is_Some (Obj.get (fst (Obj.update f name proto players))
                   (snd (Obj.update f name proto players)) n).
Proof.
  unfold Obj.get, Obj.update.
  destruct (players !! name) as [p |] eqn:Hp; cbn [fst snd].
  - destruct (decide (name = n)) as [-> | Hne].
    + rewrite lookup_insert_eq. eauto.
    + now rewrite lookup_insert_ne.
  - destruct (players !! n); [trivial |].
    destruct (decide (name = n)) as [-> | Hne].
    + rewrite lookup_alter_eq. intros [q ->]. cbn. eauto.
    + now rewrite lookup_alter_ne.
Qed.

(** A bonus for a name under which the players have something, an entry or
    what every object inherits, passes the assertion. *)
Lemma add_bonuses_known (bs : list (string * float))
    (proto players : gmap string Player.t) :
  Forall (fun b => is_Some (Obj.get proto players (fst b))) bs ->
  fst (Client.add_bonuses bs proto players) = Ok tt.
Proof.
  revert proto players.
  induction bs as [| [name amount] bs IH]; intros proto players H;
    cbn [Client.add_bonuses].
  - reflexivity.
  - inversion_clear H as [| ? ? [p Hp] Hbs]. cbn [fst] in Hp. rewrite Hp.
    pose proof (fun n => update_get (Player.set_bonus amount) name n proto players) as Hu.
    destruct (Obj.update _ name proto players) as [proto' players'].
    apply IH. eapply Forall_impl; [exact Hbs |].
    intros [n a] Hn. apply Hu, Hn.
Qed.

Ltac case_getGameInfo :=
  match goal with
  | |- context [Client.getGameInfo ?k ?x] => destruct (Client.getGameInfo k x)
  end.

(** [game_crash] is handled to the end when the players have something
    under the name of every bonus. *)
Lemma onGameCrash_returns (clock : Clock) (data : Client.CrashData)
    (c : Client.t) (g : Game.t) :
  Client.game c = Some g ->
  Forall (fun b => is_Some (Obj.get (Client.prototype c) (Game.players g) (fst b)))
         (Client.bonuses data) ->
  fst (Client.onGameCrash clock data c) = Ok tt.
Proof.
  intros Hg Hb. unfold Client.onGameCrash. rewrite Hg.
  pose proof (add_bonuses_known _ _ _ Hb) as Ha.
  cbn [Game.crashed Game.players Client.prototype Client.set_lastServerSeed].
  destruct (Client.add_bonuses _ _ _) as [r [proto players]]. simpl in Ha. subst r.
  match goal with |- context [Client.getGameInfo ?k ?x] =>
    destruct (Client.getGameInfo k x) eqn:E end; [reflexivity |].
  exfalso. revert E. unfold Client.getGameInfo.
  destruct (strict_eq _ PLAYING || _); cbn; discriminate.
Qed.

(** A playing user is CRASHED after a [game_crash] that was handled to the
    end. *)
Lemma onGameCrash_playing (clock : Clock) (data : Client.CrashData) (c : Client.t) :
  Client.userState c = Some PLAYING ->
  fst (Client.onGameCrash clock data c) = Ok tt ->
  Client.userState (snd (Client.onGameCrash clock data c)) = Some CRASHED.
Proof.
  intros Hu. unfold Client.onGameCrash.
  destruct (Client.game c) as [g |]; [| discriminate].
  destruct (Client.add_bonuses _ _ _) as [[[] | e] [proto players]]; [| discriminate].
  cbn [Client.userState Client.set_game Client.set_lastServerSeed Client.set_prototype].
  rewrite Hu. cbn [strict_eq UserState_eqb orb].
  now case_getGameInfo.
Qed.

(** [game_crash] credits nothing. *)
Lemma onGameCrash_balance (clock : Clock) (data : Client.CrashData) (c : Client.t) :
  Client.balance (snd (Client.onGameCrash clock data c)) = Client.balance c.
Proof.
  unfold Client.onGameCrash.
  destruct (Client.game c) as [g |]; [| reflexivity].
  destruct (Client.add_bonuses _ _ _) as [[[] | e] [proto players]]; [| reflexivity].
  destruct (strict_eq _ PLAYING || _); now case_getGameInfo.
Qed.

(** C3.  A user who is CASHINGOUT when [game_crash] is handled is still
    CASHINGOUT afterwards, whatever the event and the rest of the client:
    the handler tests [this.state], which does not exist, where it means
    [this.userState]. *)
Theorem onGameCrash_cashingout_stays (clock : Clock) (data : Client.CrashData)
    (c : Client.t) :
  Client.userState
    (snd (Client.onGameCrash clock data (Client.set_userState (Some CASHINGOUT) c)))
  = Some CASHINGOUT.
Proof.
  unfold Client.onGameCrash. cbn [Client.game Client.set_userState].
  destruct (Client.game c) as [g |]; [| reflexivity].
  destruct (Client.add_bonuses _ _ _) as [[[] | e] [proto players]]; [| reflexivity].
  cbn [Client.userState Client.set_game Client.set_lastServerSeed Client.set_prototype
       strict_eq UserState_eqb Client.state orb].
  now case_getGameInfo.
Qed.

(** The same on a session: bet, confirmation, start, cash-out request, crash. *)
Lemma cashingout_session :
  Client.userState Scenario.cashingout = Some CASHINGOUT /\
  exists c', Client.onGameCrash Scenario.clock (Scenario.crash 172085350) Scenario.cashingout
             = (Ok tt, c') /\
    Client.userState c' = Some CASHINGOUT /\
    Client.balance c' = Client.balance Scenario.cashingout.
Proof.
  split; [reflexivity |]. eexists. split; [vm_compute; reflexivity |].
  split; reflexivity.
Qed.

(** ** The tick history *)

(** C10.  With a round in place, [getLastTick] returns the tick appended
    last when there is one, and [{elapsed: 0, growth: 100, micro: 0}] when
    the list is empty. *)
Theorem getLastTick_spec (c : Client.t) (g : Game.t) :
  Client.game c = Some g ->
  (forall ticks tick, Game.ticks g = ticks ++ [tick] -> Client.getLastTick c = Ok tick) /\
  (Game.ticks g = [] ->
   Client.getLastTick c =
     Ok {| Tick.elapsed := 0; Tick.growth := 100; Tick.micro := Some 0%float |}).
Proof.
  intros Hg. unfold Client.getLastTick. rewrite Hg. split.
  - intros ticks tick ->. rewrite List.length_app, List.last_last. cbn.
    destruct (0 <? _) eqn:E; [reflexivity |].
    apply Z.ltb_ge in E. lia.
  - intros ->. reflexivity.
Qed.

Lemma getLastTick_spec_witness :
  Client.getLastTick Scenario.playing = Ok Client.tick0 /\
  Client.getLastTick Scenario.starting = Ok Client.tick0.
Proof.
  split.
  - refine (proj1 (getLastTick_spec Scenario.playing _ eq_refl) [] _ eq_refl).
  - refine (proj2 (getLastTick_spec Scenario.starting _ eq_refl) eq_refl).
Defined.

(** A tick that [game_tick] appends is the one [getLastTick] returns next. *)
Lemma getLastTick_after_tick (Math_pow : float -> float -> float) (clock : Clock)
    (elapsed : Z) (c c' : Client.t) :
  Client.onGameTick Math_pow clock elapsed c = (Ok tt, c') ->
  exists tick, Client.getLastTick c' = Ok tick /\ Tick.elapsed tick = elapsed.
Proof.
  unfold Client.onGameTick.
  destruct (Client.getLastTick c) as [prev | e]; [| destruct (Client.game c); discriminate].
  destruct (Client.game c) as [g |]; [| discriminate].
  cbn [Client.tickModel Client.set_game].
  destruct (Client.tickModel c) as [m |]; [| discriminate].
  match goal with |- context [Client.estimateNextTick ?p ?x] =>
    destruct (Client.estimateNextTick p x) end; [| discriminate].
  intros [= <-]. eexists. split.
  - unfold Client.getLastTick. cbn. rewrite List.length_app, List.last_last.
    destruct (0 <? _) eqn:E; [reflexivity |].
    apply Z.ltb_ge in E. cbn in E. lia.
  - reflexivity.
Qed.

Lemma diffs_of_length (ticks : list Tick.t) :
  List.length (Client.diffs_of ticks) = Nat.pred (List.length ticks).
Proof.
  induction ticks as [| a [| b r] IH]; [reflexivity | reflexivity |].
  change (Client.diffs_of (a :: b :: r))
    with ((Tick.elapsed b - Tick.elapsed a) :: Client.diffs_of (b :: r)).
  cbn [List.length Nat.pred] in *. now rewrite IH.
Qed.

(** The [i]-th difference is between the ticks [i] and [i+1]. *)
Lemma diffs_of_lookup (ticks : list Tick.t) (i : nat) (a b : Tick.t) :
  ticks !! i = Some a -> ticks !! S i = Some b ->
  Client.diffs_of ticks !! i = Some (Tick.elapsed b - Tick.elapsed a).
Proof.
  revert i. induction ticks as [| x [| y r] IH]; intros i Ha Hb.
  - discriminate.
  - destruct i; discriminate.
  - change (Client.diffs_of (x :: y :: r))
      with ((Tick.elapsed y - Tick.elapsed x) :: Client.diffs_of (y :: r)).
    destruct i as [| i].
    + cbn in Ha, Hb. now inversion Ha; inversion Hb; subst.
    + cbn [lookup list_lookup] in *. now apply IH.
Qed.

(** [Array.prototype.sort] with the comparator [a - b] leaves the array
    ascending; whichever algorithm the host uses, the outcome is the one of
    [merge_sort]. *)
Lemma sort_unique (l sorted : list Z) :
  Sorted Z.le sorted -> sorted ≡ₚ l -> sorted = merge_sort Z.le l.
Proof.
  intros Hs Hp. apply (Sorted_unique Z.le); [assumption | |].
  - apply (Sorted_merge_sort Z.le).
  - now rewrite merge_sort_Permutation.
Qed.

(** On every array shorter than 4000 the two percentile indices, computed
    in binary64, are the integers [floor(count/20)] and
    [floor(19*count/20)]. *)
Lemma percentile_index_small (count : nat) :
  (count < 4000)%nat ->
  JS.number_to_Z (Client.percentile_index 0.05 count) = Some (Z.of_nat count / 20) /\
  JS.number_to_Z (Client.percentile_index 0.95 count) = Some (19 * Z.of_nat count / 20).
Proof.
  intros H.
  assert (A : List.forallb
                (fun n =>
                   match JS.number_to_Z (Client.percentile_index 0.05 n),
                         JS.number_to_Z (Client.percentile_index 0.95 n) with
                   | Some i, Some j =>
                       (i =? Z.of_nat n / 20) && (j =? 19 * Z.of_nat n / 20)
                   | _, _ => false
                   end) (List.seq 0 4000) = true)
    by (vm_compute; reflexivity).
  rewrite List.forallb_forall in A.
  specialize (A count ltac:(apply List.in_seq; lia)).
  destruct (JS.number_to_Z (Client.percentile_index 0.05 count)) as [i |]; [| discriminate].
  destruct (JS.number_to_Z (Client.percentile_index 0.95 count)) as [j |]; [| discriminate].
  apply andb_true_iff in A. destruct A as [A1 A2].
  apply Z.eqb_eq in A1, A2. now subst.
Qed.



Lemma estimateTickTimeDiff_returns (c : Client.t) (g : Game.t) :
  Client.game c = Some g -> exists d, Client.estimateTickTimeDiff c = Ok d.
Proof.
  intros Hg. unfold Client.estimateTickTimeDiff. rewrite Hg.
  destruct (Game.ticks g) as [| a [| b [| d [| e r]]]]; eexists; reflexivity.
Qed.

(** C9.  With a round and a tick model in place, [estimateNextTick] returns
    two ticks at the elapsed times [last + lower] and [last + upper], each
    with the growth function's value there; their [micro] is [undefined],
    not the model's projection, because [elapsedToMicro] returns nothing. *)
Theorem estimateNextTick_micro_undefined (Math_pow : float -> float -> float)
    (c : Client.t) (g : Game.t) (m : LinearModel.t) :
  Client.game c = Some g -> Client.tickModel c = Some m ->
  exists last diff,
    Client.getLastTick c = Ok last /\
    Client.estimateTickTimeDiff c = Ok diff /\
    let at_lower := JS.add (Some (Tick.elapsed last)) (Client.lower diff) in
    let at_upper := JS.add (Some (Tick.elapsed last)) (Client.upper diff) in
    Client.estimateNextTick Math_pow c =
      Ok {| Client.next_lower :=
              {| Client.est_elapsed := at_lower;
                 Client.est_growth := Lib.growthFunc Math_pow (JS.to_number at_lower);
                 Client.est_micro := None |};
            Client.next_upper :=
              {| Client.est_elapsed := at_upper;
                 Client.est_growth := Lib.growthFunc Math_pow (JS.to_number at_upper);
                 Client.est_micro := None |} |}.
Proof.
  intros Hg Hm.
  destruct (estimateTickTimeDiff_returns c g Hg) as [diff Hd].
  assert (Hl : exists last, Client.getLastTick c = Ok last).
  { unfold Client.getLastTick. rewrite Hg. destruct (0 <? _); eauto. }
  destruct Hl as [last Hl].
  exists last, diff. repeat split; try assumption.
  unfold Client.estimateNextTick, Client.elapsedToMicro.
  rewrite Hl, Hd, Hm. reflexivity.
Qed.

Lemma estimateNextTick_micro_undefined_witness :
  Client.estimateNextTick Scenario.host_pow Scenario.ticking =
    Ok {| Client.next_lower :=
            {| Client.est_elapsed := Some 1495; Client.est_growth := 109;
               Client.est_micro := None |};
          Client.next_upper :=
            {| Client.est_elapsed := Some 1515; Client.est_growth := 109;
               Client.est_micro := None |} |}.
Proof.
  assert (Hg : exists g m, Client.game Scenario.ticking = Some g /\
                           Client.tickModel Scenario.ticking = Some m).
  { let g := game_of Scenario.ticking in
    let m := eval vm_compute in (Client.tickModel Scenario.ticking) in
    match m with Some ?m => exists g, m end; split; vm_compute; reflexivity. }
  destruct Hg as (g & m & Hg & Hm).
  destruct (estimateNextTick_micro_undefined Scenario.host_pow Scenario.ticking
              g m Hg Hm) as (last & diff & Hl & Hd & E).
  rewrite E. clear E.
  assert (El : last = Tick.mk 1255 107 (Some 0%float)).
  { vm_compute in Hl. now inversion Hl. }
  assert (Ed : diff = Client.mkDiff (Some 240) (Some 260)).
  { vm_compute in Hd. now inversion Hd. }
  subst. vm_compute. reflexivity.
Defined.

(** ** The round-end check *)

(** C2.  The tolerance above 1e6 is 0.08 in the units of the crash point
    itself (hundredths), not 8 of them.  The seed of the example has the
    crash point 172085350; a report that is off by 1, 5 or 7 hundredths is a
    "scam", and beside the exact report only one off by a fraction of a
    hundredth passes. *)
Theorem verdict_tolerance :
  Lib.crashPoint Scenario.big_seed = 172085350%float /\
  List.map (fun r => Client.verdict 172085350 (Some r))
           [172085343; 172085345; 172085349; 172085350; 172085350.05;
            172085351; 172085357]%float
    = [scam; scam; scam; ok; ok; scam; scam] /\
  option_map Client.info_verified
    (match Client.getGameInfo Scenario.clock
             (Scenario.run (Client.onGameCrash Scenario.clock (Scenario.crash 172085345))
                           Scenario.playing) with
     | Ok info => Some info
     | Throw _ => None
     end)
    = Some (Some scam).
Proof. repeat split; vm_compute; reflexivity. Qed.

(** Equal values pass whatever their size. *)
Lemma sub_self (x : float) (z : Z) :
  JS.number_to_Z x = Some z -> Prim2SF (x - x)%float = S754_zero false.
Proof.
  unfold JS.number_to_Z. rewrite FloatAxioms.sub_spec. unfold SF64sub.
  destruct (Prim2SF x) as [[] | [] | | s m e]; try discriminate; intros _;
    try reflexivity.
  unfold SFsub. rewrite Z.min_id. unfold shl_align. rewrite Z.sub_diag. cbn [fst].
  reflexivity.
Qed.

Lemma verdict_equal (cp : float) (z : Z) :
  JS.number_to_Z cp = Some z -> Client.verdict cp (Some cp) = ok.
Proof.
  intros H. unfold Client.verdict, JS.Math_abs. cbn [JS.of_undefined].
  assert (E : PrimFloat.eqb (abs (cp - cp)) 0 = true).
  { rewrite FloatAxioms.eqb_spec, abs_spec, (sub_self cp z H). reflexivity. }
  now rewrite E.
Qed.

(** Values at the threshold and below it. *)
Lemma verdict_examples :
  Client.verdict 1000000 (Some 1000000%float) = ok /\
  Client.verdict 999999 (Some 999999%float) = ok /\
  Client.verdict 999999 (Some 1000000%float) = scam /\
  Client.verdict 1000008 (Some 1000000%float) = scam /\
  Client.verdict 172085350 None = scam.
Proof. repeat split. Qed.

(** * Further properties of the library and of the client *)

(** ** Divisibility of a digest *)

Lemma parseInt16_digit (c : ascii) :
  JS.parseInt16 (String c EmptyString) = JS.hex_digit c.
Proof. each_ascii c; reflexivity. Qed.

Lemma nibble_bound (c : ascii) : 0 <= Spec.nibble c < 16.
Proof. each_ascii c; vm_compute; split; congruence. Qed.

Lemma shl_4 (r : Z) : 0 <= r < 2 ^ 27 -> JS.shl (Some r) 4 = Some (r * 16).
Proof.
  intros H. unfold JS.shl, JS.shl32, JS.to_int32. f_equal.
  change (4 mod 32) with 4.
  rewrite (Z.mod_small (r + 2 ^ 31)) by lia.
  replace (r + 2 ^ 31 - 2 ^ 31) with r by lia.
  rewrite Z.shiftl_mul_pow2 by lia. change (2 ^ 4) with 16.
  rewrite Z.mod_small by lia. lia.
Qed.

Lemma digit_loop_mod (m : Z) (l : list ascii) (r : Z) :
  0 < m <= 2 ^ 27 -> Forall (fun c => is_hex c = true) l -> 0 <= r < m ->
  List.fold_left
    (fun r d => JS.rem (JS.add (JS.shl r 4) (JS.parseInt16 d)) m)
    (List.map (fun c => String c EmptyString) l) (Some r)
  = Some (List.fold_left (fun acc c => (acc * 16 + Spec.nibble c) mod m) l r).
Proof.
  intros Hm H. revert r. induction H as [| c l Hc Hl IH]; intros r Hr;
    cbn [List.fold_left List.map].
  - reflexivity.
  - rewrite shl_4 by lia. rewrite parseInt16_digit.
    pose proof (nibble_bound c) as Hn.
    unfold is_hex in Hc. unfold Spec.nibble in *.
    destruct (JS.hex_digit c) as [d |]; [| discriminate].
    cbn [JS.add JS.rem].
    destruct (m =? 0) eqn:E; [apply Z.eqb_eq in E; lia |].
    rewrite Z.rem_mod_nonneg by lia.
    apply IH. apply Z.mod_pos_bound. lia.
Qed.

Lemma fold_mod_value (m : Z) (l : list ascii) (r : Z) :
  0 < m ->
  List.fold_left (fun acc c => (acc * 16 + Spec.nibble c) mod m) l (r mod m)
  = List.fold_left (fun acc c => acc * 16 + Spec.nibble c) l r mod m.
Proof.
  intros Hm. revert r. induction l as [| c l IH]; intros r; cbn [List.fold_left].
  - reflexivity.
  - rewrite <- IH. f_equal.
    rewrite Z.add_mod, Z.mul_mod_idemp_l, <- Z.add_mod by lia. reflexivity.
Qed.

(** X1.  On a string of hexadecimal digits of any length, and for a modulus
    from 1 to 2^27 (so that the 32-bit shift never overflows),
    [divisible(hash, mod)] tells whether the number the string writes is a
    multiple of [mod]. *)
Theorem divisible_mod (hash : string) (m : Z) :
  0 < m <= 2 ^ 27 ->
  Forall (fun c => is_hex c = true) (list_ascii_of_string hash) ->
  Lib.divisible hash m = (Spec.hex_value (list_ascii_of_string hash) mod m =? 0).
Proof.
  intros Hm H. unfold Lib.divisible, JS.split_chars, Spec.hex_value.
  rewrite digit_loop_mod by (assumption || lia).
  change 0 with (0 mod m) at 1. rewrite fold_mod_value by lia.
  now destruct (_ mod m) as [| p | p].
Qed.

Lemma divisible_mod_witness :
  Lib.divisible "1fa" 101 = (Spec.hex_value (list_ascii_of_string "1fa") mod 101 =? 0).
Proof.
  apply divisible_mod; [lia | repeat constructor].
Defined.

Lemma list_ascii_app (a b : string) :
  list_ascii_of_string (a ++ b) = list_ascii_of_string a ++ list_ascii_of_string b.
Proof. induction a as [| c a IH]; simpl; [reflexivity | now rewrite IH]. Qed.

(** [NaN << 4] is 0: after a NaN the loop goes on as from the start. *)
Lemma digit_loop_from_nan (m : Z) (d : string) (rest : list string) :
  List.fold_left (fun r d => JS.rem (JS.add (JS.shl r 4) (JS.parseInt16 d)) m)
                 (d :: rest) None
  = List.fold_left (fun r d => JS.rem (JS.add (JS.shl r 4) (JS.parseInt16 d)) m)
                   (d :: rest) (Some 0).
Proof. reflexivity. Qed.

(** X2.  A character that is no hexadecimal digit makes the running value
    NaN, and the shift of the next turn makes it 0 again: what comes before
    such a character is forgotten.  When it is the last character the
    answer is [false] (NaN is not 0); otherwise the answer is the one for
    the rest of the string. *)
Theorem divisible_restart (pre suf : string) (c : ascii) (m : Z) :
  JS.hex_digit c = None ->
  Lib.divisible (pre ++ String c suf) m =
    match suf with
    | EmptyString => false
    | _ => Lib.divisible suf m
    end.
Proof.
  intros Hc. unfold Lib.divisible, JS.split_chars.
  rewrite list_ascii_app. cbn [list_ascii_of_string].
  rewrite List.map_app, List.fold_left_app. cbn [List.map List.fold_left].
  rewrite parseInt16_digit, Hc.
  assert (E : forall r, JS.rem (JS.add (JS.shl r 4) None) m = None).
  { intros r. unfold JS.add. now destruct (JS.shl r 4). }
  rewrite E. destruct suf as [| d suf]; [reflexivity |].
  cbn [list_ascii_of_string List.map]. now rewrite digit_loop_from_nan.
Qed.

Lemma divisible_restart_witness :
  Lib.divisible "65x0" 101 = Lib.divisible "0" 101.
Proof. apply (divisible_restart "65" "0" "x" 101). reflexivity. Defined.

(** ** User names *)

Lemma units_eqb_eq (a b : list Z) : Lib.units_eqb a b = true <-> a = b.
Proof.
  unfold Lib.units_eqb. revert b. induction a as [| x a IH]; intros [| y b]; cbn;
    try (split; [discriminate | congruence]).
  - split; reflexivity.
  - specialize (IH b). rewrite !andb_true_iff in *. rewrite Z.eqb_eq. split.
    + intros (Hl & -> & H). f_equal. apply IH. now split.
    + intros [= -> ->]. destruct (proj2 IH eq_refl) as [Hl H]. now repeat split.
Qed.

(** X3.  [isInvalidUsername] answers [false] exactly on the strings of 3 to
    50 code units, each a letter of either case, a digit, [_] or [-], that
    are not [__proto__]; a string of one or two units is TOO_SHORT whatever
    it holds, and the names of the properties of [Object.prototype] other
    than [__proto__] that are long enough pass. *)
Theorem isInvalidUsername_accepts (input : Lib.Input) :
  (Lib.isInvalidUsername input = None <->
   exists s, input = Lib.Str s /\
     (3 <= List.length s <= 50)%nat /\
     Forall (fun u => Lib.name_unit u = true) s /\
     s <> Lib.units_of "__proto__") /\
  (forall s, input = Lib.Str s -> (1 <= List.length s <= 2)%nat ->
     Lib.isInvalidUsername input = Some Lib.TOO_SHORT) /\
  List.map (fun name => Lib.isInvalidUsername (Lib.Str (Lib.units_of name))) Obj.names
  = List.map (fun name => if String.eqb name "__proto__" then Some Lib.INVALID_CHARS else None)
             Obj.names.
Proof.
  split; [| split; [| vm_compute; reflexivity]].
  - destruct input as [| s]; cbn [Lib.isInvalidUsername].
    + split; [discriminate | intros (s & [=] & _)].
    + cbv zeta.
      destruct (Z.of_nat (List.length s) =? 0) eqn:E0.
      { apply Z.eqb_eq in E0. split; [discriminate |].
        intros (s' & [= <-] & Hl & _). lia. }
      destruct (Z.of_nat (List.length s) <? 3) eqn:E3.
      { apply Z.ltb_lt in E3. split; [discriminate |].
        intros (s' & [= <-] & Hl & _). lia. }
      destruct (50 <? Z.of_nat (List.length s)) eqn:E50.
      { apply Z.ltb_lt in E50. split; [discriminate |].
        intros (s' & [= <-] & Hl & _). lia. }
      apply Z.ltb_ge in E3, E50.
      destruct (List.forallb Lib.name_unit s) eqn:Ef; cbn [negb].
      2:{ split; [discriminate |]. intros (s' & [= <-] & _ & Hf & _).
          pose proof (proj2 (List.forallb_forall Lib.name_unit s)
                        (proj1 (List.Forall_forall _ s) Hf)). congruence. }
      destruct (Lib.units_eqb s (Lib.units_of "__proto__")) eqn:Ep.
      { apply units_eqb_eq in Ep. split; [discriminate |].
        intros (s' & [= <-] & _ & _ & Hn). contradiction. }
      split; [| reflexivity]. intros _. exists s. repeat split; try lia.
      * apply List.Forall_forall. now apply (List.forallb_forall Lib.name_unit s).
      * intros Hs. apply units_eqb_eq in Hs. congruence.
  - intros s -> Hl. cbn [Lib.isInvalidUsername]. cbv zeta.
    destruct (Z.of_nat (List.length s) =? 0) eqn:E0; [apply Z.eqb_eq in E0; lia |].
    destruct (Z.of_nat (List.length s) <? 3) eqn:E3; [reflexivity |].
    apply Z.ltb_ge in E3. lia.
Qed.

(** ** Time differences *)

Lemma time_units_bounds (diff : Z) :
  0 <= diff ->
  exists d h m s, Lib.time_units diff = (d, h, m, s) /\
    0 <= d /\ 0 <= h < 24 /\ 0 <= m < 60 /\ 0 <= s < 60 /\
    ((d * 24 + h) * 60 + m) * 60 + s = diff / 1000.
Proof.
  intros H. unfold Lib.time_units. cbv zeta.
  do 4 eexists. split; [reflexivity |].
  set (x := diff / 1000).
  assert (Hx : 0 <= x) by (apply Z.div_pos; lia).
  assert (H1 : 0 <= x / 60) by (apply Z.div_pos; lia).
  assert (H2 : 0 <= x / 60 / 60) by (apply Z.div_pos; lia).
  rewrite !Z.rem_mod_nonneg by lia.
  pose proof (Z.mod_pos_bound x 60 ltac:(lia)).
  pose proof (Z.mod_pos_bound (x / 60) 60 ltac:(lia)).
  pose proof (Z.mod_pos_bound (x / 60 / 60) 24 ltac:(lia)).
  pose proof (Z.div_mod x 60 ltac:(lia)).
  pose proof (Z.div_mod (x / 60) 60 ltac:(lia)).
  pose proof (Z.div_mod (x / 60 / 60) 24 ltac:(lia)).
  assert (0 <= x / 60 / 60 / 24) by (apply Z.div_pos; lia).
  repeat split; lia.
Qed.

(** X4.  For a difference of 0 ms or more (below 2^53, where the Numbers of
    the source are the integers), the days, hours, minutes and seconds that
    [formatTimeDiff] splits it into are in their ranges and add up to the
    whole seconds of the difference. *)
Theorem time_units_recompose (diff : Z) :
  0 <= diff < 2 ^ 53 ->
  exists d h m s, Lib.time_units diff = (d, h, m, s) /\
    0 <= d /\ 0 <= h < 24 /\ 0 <= m < 60 /\ 0 <= s < 60 /\
    ((d * 24 + h) * 60 + m) * 60 + s = diff / 1000.
Proof. intros H. apply time_units_bounds. lia. Qed.

Lemma time_units_recompose_witness :
  exists d h m s, Lib.time_units 90061000 = (d, h, m, s) /\
    0 <= d /\ 0 <= h < 24 /\ 0 <= m < 60 /\ 0 <= s < 60 /\
    ((d * 24 + h) * 60 + m) * 60 + s = 90061000 / 1000.
Proof. apply time_units_recompose. lia. Defined.

Lemma append_unit_nonempty (a : string) (c : ascii) (r : string) :
  (a ++ String c r)%string <> EmptyString.
Proof. destruct a; discriminate. Qed.

Lemma join_nonempty (sep w : string) (l : list string) :
  w <> EmptyString -> JS.join sep (w :: l) <> EmptyString.
Proof.
  intros H. destruct l as [| v l]; [exact H |].
  cbn [JS.join]. destruct w; [contradiction | discriminate].
Qed.

(** X5.  [formatTimeDiff] shows the first two of the units that are not 0,
    from days down to seconds, and drops the rest.  Below one second
    (negative differences included) the text is empty; from one second on
    it has one or two words. *)
Theorem formatTimeDiff_first_two (diff : Z) :
  - 2 ^ 53 < diff < 2 ^ 53 ->
  exists d h m s, Lib.time_units diff = (d, h, m, s) /\
    Lib.formatTimeDiff_words diff =
      List.firstn 2
        (List.map shown
           (List.filter (fun unit => 0 <? fst unit)
              [(d, "d"); (h, "h"); (m, "m"); (s, "s")]%string)) /\
    (diff < 1000 -> Lib.formatTimeDiff diff = EmptyString) /\
    (1000 <= diff ->
     Lib.formatTimeDiff diff <> EmptyString /\
     (1 <= List.length (Lib.formatTimeDiff_words diff) <= 2)%nat).
Proof.
  intros _.
  unfold Lib.formatTimeDiff, Lib.formatTimeDiff_words.
  destruct (Lib.time_units diff) as [[[d h] m] s] eqn:E.
  exists d, h, m, s. split; [reflexivity |].
  assert (Hw : forall d h m s,
    (let acc := ([], 0) in
     let acc := Lib.push_unit d "d" acc in
     let acc := Lib.push_unit h "h" acc in
     if 2 <=? snd acc then fst acc
     else let acc := Lib.push_unit m "m" acc in
          if 2 <=? snd acc then fst acc
          else let acc := Lib.push_unit s "s" acc in fst acc)
    = List.firstn 2 (List.map shown (List.filter (fun unit => 0 <? fst unit)
              [(d, "d"); (h, "h"); (m, "m"); (s, "s")]%string))).
  { clear. intros d h m s. unfold Lib.push_unit. cbn [List.filter fst snd].
    destruct (0 <? d), (0 <? h), (0 <? m), (0 <? s); reflexivity. }
  rewrite Hw. clear Hw. split; [reflexivity |].
  unfold Lib.time_units in E. cbv zeta in E. injection E as Ed Eh Em Es.
  set (x := diff / 1000) in *.
  split.
  - intros Hlt. assert (Hx : x <= 0).
    { unfold x. pose proof (Z.div_lt_upper_bound diff 1000 1 ltac:(lia) ltac:(lia)). lia. }
    assert (H1 : x / 60 <= 0) by (apply Z.div_le_upper_bound; lia).
    assert (H2 : x / 60 / 60 <= 0) by (apply Z.div_le_upper_bound; lia).
    assert (H3 : x / 60 / 60 / 24 <= 0) by (apply Z.div_le_upper_bound; lia).
    pose proof (Z.rem_nonpos x 60 ltac:(lia) ltac:(lia)).
    pose proof (Z.rem_nonpos (x / 60) 60 ltac:(lia) ltac:(lia)).
    pose proof (Z.rem_nonpos (x / 60 / 60) 24 ltac:(lia) ltac:(lia)).
    cbn [List.filter fst].
    replace (0 <? d) with false by (symmetry; apply Z.ltb_ge; lia).
    replace (0 <? h) with false by (symmetry; apply Z.ltb_ge; lia).
    replace (0 <? m) with false by (symmetry; apply Z.ltb_ge; lia).
    replace (0 <? s) with false by (symmetry; apply Z.ltb_ge; lia).
    reflexivity.
  - intros Hge.
    destruct (time_units_bounds diff ltac:(lia)) as (d' & h' & m' & s' & E' & Hd & Hh & Hm & Hs & Hsum).
    unfold Lib.time_units in E'. cbv zeta in E'. fold x in E'.
    injection E' as <- <- <- <-. rewrite Ed, Eh, Em, Es in *.
    assert (Hx : 1 <= x).
    { unfold x. apply Z.div_le_lower_bound; lia. }
    fold x in Hsum.
    cbn [List.filter fst].
    destruct (0 <? d) eqn:Cd, (0 <? h) eqn:Ch, (0 <? m) eqn:Cm, (0 <? s) eqn:Cs;
      cbn [List.map List.firstn List.length];
      try (split; [apply join_nonempty, append_unit_nonempty | lia]).
    apply Z.ltb_ge in Cd, Ch, Cm, Cs. lia.
Qed.

Lemma formatTimeDiff_first_two_witness :
  Lib.formatTimeDiff 90061000 = "1d 1h"%string /\
  Lib.formatTimeDiff 61000 = "1m 1s"%string /\
  Lib.formatTimeDiff 3600000 = "1h"%string.
Proof.
  assert (H : forall diff, - 2 ^ 53 < diff < 2 ^ 53 ->
            Lib.formatTimeDiff diff =
              JS.join " " (List.firstn 2 (List.map shown
                (List.filter (fun unit => 0 <? fst unit)
                   (let '(d, h, m, s) := Lib.time_units diff in
                    [(d, "d"); (h, "h"); (m, "m"); (s, "s")]%string))))).
  { intros diff Hd.
    destruct (formatTimeDiff_first_two diff Hd) as (d & h & m & s & E & Ew & _).
    unfold Lib.formatTimeDiff. now rewrite Ew, E. }
  repeat split; (rewrite H by lia); reflexivity.
Defined.

(** ** The players of a round *)


(** The balance is as it was when no bet is under the user's name, however
    the loop ends. *)
Lemma started_bets_other (user : option string) (bets : list (string * float))
    (balance : option float) (players : gmap string Player.t) :
  Forall (fun b => Client.same_user user (fst b) = false) bets ->
  fst (snd (Client.started_bets user bets balance players)) = balance.
Proof.
  intros H. revert balance players.
  induction H as [| [name amount] bets Hb Hbs IH]; intros balance players.
  - reflexivity.
  - cbn [Client.started_bets]. cbn in Hb. rewrite Hb.
    destruct (Obj.hasOwnProperty players name) as [[] | e]; [apply IH | apply IH | reflexivity].
Qed.

Lemma started_bets_own (u : string) (amount : float) (bets : list (string * float))
    (balance balance' : option float) (players players' : gmap string Player.t) :
  NoDup (List.map fst bets) -> In (u, amount) bets ->
  Client.started_bets (Some u) bets balance players = (Ok tt, (balance', players')) ->
  balance' = Some (JS.of_null balance - amount)%float.
Proof.
  revert balance players.
  induction bets as [| [name a] bets IH]; intros balance players Hn Hi E.
  - inversion Hi.
  - cbn [List.map fst] in Hn. apply NoDup_cons in Hn. destruct Hn as [Hnew Hn].
    cbn [Client.started_bets] in E.
    destruct Hi as [[= -> ->] | Hi].
    + cbn [Client.same_user] in E. rewrite String.eqb_refl in E.
      assert (Hf : Forall (fun b => Client.same_user (Some u) (fst b) = false) bets).
      { apply List.Forall_forall. intros [n b] Hin. cbn.
        apply String.eqb_neq. intros ->. apply Hnew.
        apply list_elem_of_In. apply (List.in_map fst _ _ Hin). }
      destruct (Obj.hasOwnProperty players u) as [[] | e]; [| | discriminate];
        match type of E with Client.started_bets ?a ?b ?c ?d = _ =>
          pose proof (started_bets_other a b c d Hf) as Ho end;
        rewrite E in Ho; cbn in Ho; now subst.
    + assert (Hne : name <> u).
      { intros ->. apply Hnew. apply list_elem_of_In. apply (List.in_map fst _ _ Hi). }
      cbn [Client.same_user] in E.
      replace (String.eqb u name) with false in E
        by (symmetry; apply String.eqb_neq; congruence).
      destruct (Obj.hasOwnProperty players name) as [[] | e]; [| | discriminate];
        eapply IH; eassumption.
Qed.

(** One turn of the loop on the entries. *)
Lemma started_turn (players : gmap string Player.t) (n : string) (a : float) :
  let players1 :=
    if Obj.has players n then alter (Player.set_bet a) n players
    else Obj.set n (Player.set_bet a Player.empty) players in
  (n <> "__proto__"%string ->
   players1 !! n = Some (Player.set_bet a (default Player.empty (players !! n)))) /\
  (forall x, x <> n -> players1 !! x = players !! x).
Proof.
  cbn zeta. unfold Obj.has, Obj.set, Obj.has.
  destruct (players !! n) as [p |] eqn:E; cbn [negb]; split.
  - intros _. now rewrite lookup_alter_eq, E.
  - intros x Hx. now rewrite lookup_alter_ne.
  - intros Hn. apply String.eqb_neq in Hn. rewrite Hn. cbn [andb].
    apply lookup_insert_eq.
  - intros x Hx. destruct (_ && _); [reflexivity |]. now rewrite lookup_insert_ne.
Qed.

Lemma started_bets_players (user : option string) (bets : list (string * float))
    (balance balance' : option float) (players players' : gmap string Player.t) :
  NoDup (List.map fst bets) ->
  Client.started_bets user bets balance players = (Ok tt, (balance', players')) ->
  (forall name amount, In (name, amount) bets -> name <> "__proto__"%string ->
     players' !! name =
       Some (Player.set_bet amount (default Player.empty (players !! name)))) /\
  (forall name, ~ In name (List.map fst bets) -> players' !! name = players !! name).
Proof.
  revert balance players.
  induction bets as [| [n a] bets IH]; intros balance players Hn E.
  - cbn in E. injection E as <- <-. split; [intros ? ? [] | reflexivity].
  - cbn [List.map fst] in Hn. apply NoDup_cons in Hn. destruct Hn as [Hnew Hn].
    cbn [Client.started_bets] in E.
    destruct (started_turn players n a) as [H1 H2]. cbn zeta in H1, H2.
    unfold Obj.hasOwnProperty in E.
    destruct (players !! "hasOwnProperty"%string); [discriminate |].
    assert (IH' : exists players1,
              players1 = (if Obj.has players n then alter (Player.set_bet a) n players
                          else Obj.set n (Player.set_bet a Player.empty) players) /\
              (forall name amount, In (name, amount) bets -> name <> "__proto__"%string ->
                 players' !! name =
                   Some (Player.set_bet amount (default Player.empty (players1 !! name)))) /\
              (forall name, ~ In name (List.map fst bets) ->
                 players' !! name = players1 !! name)).
    { eexists. split; [reflexivity |].
      destruct (Obj.has players n); eapply IH; eassumption. }
    destruct IH' as (players1 & -> & IHa & IHb). split.
    + intros name amount [[= -> ->] | Hi] Hp.
      * rewrite IHb; [now apply H1 |]. intros Hin. apply Hnew. now apply list_elem_of_In.
      * rewrite (IHa _ _ Hi Hp). rewrite H2; [reflexivity |].
        intros ->. apply Hnew. apply list_elem_of_In. apply (List.in_map fst _ _ Hi).
    + intros name Hni. cbn [List.map fst] in Hni.
      rewrite IHb by (intros Hin; apply Hni; now right).
      apply H2. intros ->. apply Hni. now left.
Qed.

(** X9.  A [game_started] that is handled to the end (no entry under
    [hasOwnProperty] in the way) puts the round in progress with the tick 0
    appended, stores every bet under its name, keeping what the entry held
    beside the bet and leaving the other entries alone, and debits the
    local user's own bet, if there is one, from the balance. *)
Theorem onGameStarted_bets (clock : Clock) (bets : list (string * float))
    (c : Client.t) (g : Game.t) :
  Client.game c = Some g -> NoDup (List.map fst bets) ->
  Game.players g !! "hasOwnProperty"%string = None ->
  ~ In "hasOwnProperty"%string (List.removelast (List.map fst bets)) ->
  exists c' g',
    Client.onGameStarted clock bets c = (Ok tt, c') /\ Client.game c' = Some g' /\
    Game.state g' = IN_PROGRESS /\
    Game.ticks g' = Game.ticks g ++ [Client.tick0] /\
    (forall name amount, In (name, amount) bets -> name <> "__proto__"%string ->
       Game.players g' !! name =
         Some (Player.set_bet amount (default Player.empty (Game.players g !! name)))) /\
    (forall name, ~ In name (List.map fst bets) ->
       Game.players g' !! name = Game.players g !! name) /\
    (forall u amount, Client.username c = Some u -> In (u, amount) bets ->
       Client.balance c' = Some (JS.of_null (Client.balance c) - amount)%float) /\
    (Forall (fun b => Client.same_user (Client.username c) (fst b) = false) bets ->
     Client.balance c' = Client.balance c).
Proof.
  intros Hg Hn Hp Hs. unfold Client.onGameStarted. rewrite Hg.
  cbn [Game.started Game.players].
  pose proof (started_bets_returns (Client.username c) bets (Client.balance c)
                (Game.players g) Hp Hs) as Hr.
  pose proof (started_bets_other (Client.username c) bets (Client.balance c)
                (Game.players g)) as Ho.
  destruct (Client.started_bets _ _ _ _) as [r [balance players]] eqn:E.
  cbn [fst snd] in Hr, Ho. subst r.
  destruct (started_bets_players _ _ _ _ _ _ Hn E) as [Hp1 Hp2].
  do 2 eexists. split; [reflexivity |]. split; [reflexivity |].
  cbn [Game.state Game.ticks Game.players Game.set_ticks Game.set_players Client.balance].
  repeat split; try assumption.
  intros u amount Hu Hi. rewrite Hu in E. eapply started_bets_own; eassumption.
Qed.

Lemma onGameStarted_bets_witness :
  Client.balance Scenario.placed = Some 99000%float /\
  exists c' g',
    Client.onGameStarted Scenario.clock [("Shiba"%string, 1000%float)] Scenario.placed
      = (Ok tt, c') /\
    Client.game c' = Some g' /\
    Client.balance c' = Some (99000 - 1000)%float.
Proof.
  split; [vm_compute; reflexivity |].
  assert (Hg : exists g, Client.game Scenario.placed = Some g /\
                 Game.players g !! "hasOwnProperty"%string = None).
  { let g := game_of Scenario.placed in exists g.
    split; vm_compute; reflexivity. }
  destruct Hg as (g & Hg & Hp).
  destruct (onGameStarted_bets Scenario.clock [("Shiba"%string, 1000%float)]
              Scenario.placed g Hg)
    as (c' & g' & E & Eg & _ & _ & _ & _ & Hb & _).
  { repeat constructor. intros H. inversion H. }
  { exact Hp. }
  { intros []. }
  exists c', g'. split; [exact E |]. split; [exact Eg |].
  rewrite (Hb "Shiba"%string 1000%float); [| vm_compute; reflexivity | now left].
  assert (Eb : Client.balance Scenario.placed = Some 99000%float) by (vm_compute; reflexivity).
  now rewrite Eb.
Defined.

Lemma onGameStarted_own (clock : Clock) (u : string) (amount : float)
    (bets : list (string * float)) (c : Client.t) (g : Game.t) :
  Client.username c = Some u -> Client.game c = Some g ->
  NoDup (List.map fst bets) -> In (u, amount) bets ->
  Game.players g !! "hasOwnProperty"%string = None ->
  ~ In "hasOwnProperty"%string (List.removelast (List.map fst bets)) ->
  exists c', Client.onGameStarted clock bets c = (Ok tt, c') /\
    Client.balance c' = Some (JS.of_null (Client.balance c) - amount)%float /\
    (Client.userState c = Some PLACED -> Client.userState c' = Some PLAYING).
Proof.
  intros Hu Hg Hn Hi Hp Hs. unfold Client.onGameStarted. rewrite Hg.
  cbn [Game.started Game.players].
  pose proof (started_bets_returns (Client.username c) bets (Client.balance c)
                (Game.players g) Hp Hs) as Hr.
  destruct (Client.started_bets _ _ _ _) as [r [balance players]] eqn:E.
  cbn [fst] in Hr. subst r. rewrite Hu in E.
  pose proof (started_bets_own _ _ _ _ _ _ _ Hn Hi E) as Hb.
  eexists. split; [reflexivity |]. split; [exact Hb |].
  intros ->. reflexivity.
Qed.

(** X10.  From WATCHING, a bet that is sent, confirmed by [player_bet] and
    listed by [game_started] takes the user to PLAYING.  The balance is
    debited by both events when the confirmation has no [index] property
    (the path the source marks for deprecation), and once when it has. *)
Theorem own_bet_debits (clock : Clock) (u : string) (amount : float)
    (has_index : bool) (bets : list (string * float)) (c : Client.t) (g : Game.t) :
  Client.username c = Some u -> Client.userState c = Some WATCHING ->
  Client.game c = Some g ->
  NoDup (List.map fst bets) -> In (u, amount) bets ->
  u <> "hasOwnProperty"%string ->
  Game.players g !! "hasOwnProperty"%string = None ->
  ~ In "hasOwnProperty"%string (List.removelast (List.map fst bets)) ->
  exists c1 c2,
    Client.onPlayerBet (Client.mkBet u amount has_index) (Client.doBet c) = (Ok tt, c1) /\
    Client.onGameStarted clock bets c1 = (Ok tt, c2) /\
    Client.userState (Client.doBet c) = Some PLACING /\
    Client.userState c1 = Some PLACED /\
    Client.userState c2 = Some PLAYING /\
    Client.balance c2 =
      Some (if has_index
            then JS.of_null (Client.balance c) - amount
            else JS.of_null (Client.balance c) - amount - amount)%float.
Proof.
  intros Hu Hs Hg Hn Hi Hne Hp Hsh.
  assert (E1 : exists c1 g1,
            Client.onPlayerBet (Client.mkBet u amount has_index) (Client.doBet c) = (Ok tt, c1) /\
            Client.userState c1 = Some PLACED /\ Client.username c1 = Some u /\
            Client.game c1 = Some g1 /\
            Game.players g1 !! "hasOwnProperty"%string = None /\
            Client.balance c1 =
              if has_index then Client.balance c
              else Some (JS.of_null (Client.balance c) - amount)%float).
  { unfold Client.doBet. rewrite Hs. cbn [strict_eq UserState_eqb negb].
    unfold Client.onPlayerBet.
    cbn [Client.game Client.set_userState Client.set_game Client.username
         Client.bet_username Client.bet_amount Client.bet_has_index].
    rewrite Hg, Hu. cbn [Client.same_user]. rewrite String.eqb_refl.
    assert (Hp1 : Obj.set u (Player.set_bet amount Player.empty) (Game.players g)
                    !! "hasOwnProperty"%string = None).
    { rewrite set_hasOwnProperty by assumption.
      now replace (String.eqb u "hasOwnProperty") with false
        by (symmetry; now apply String.eqb_neq). }
    destruct has_index.
    all: do 2 eexists; (split; [reflexivity |]); (split; [reflexivity |]);
      (split; [exact Hu |]); (split; [reflexivity |]); split; [exact Hp1 | reflexivity]. }
  destruct E1 as (c1 & g1 & E1 & Hs1 & Hu1 & Hg1 & Hp1 & Hb1).
  destruct (onGameStarted_own clock u amount bets c1 g1 Hu1 Hg1 Hn Hi Hp1 Hsh)
    as (c2 & E2 & Hb2 & Hs2).
  exists c1, c2. split; [exact E1 |]. split; [exact E2 |].
  split; [unfold Client.doBet; now rewrite Hs |].
  split; [exact Hs1 |]. split; [now apply Hs2 |].
  rewrite Hb2, Hb1. now destruct has_index.
Qed.

Lemma own_bet_debits_witness :
  exists c1 c2,
    Client.onPlayerBet (Client.mkBet "Shiba" 1000 false) (Client.doBet Scenario.starting)
      = (Ok tt, c1) /\
    Client.onGameStarted Scenario.clock [("Shiba"%string, 1000%float)] c1 = (Ok tt, c2) /\
    Client.userState c2 = Some PLAYING /\
    Client.balance c2 = Some (100000 - 1000 - 1000)%float.
Proof.
  assert (Hg : exists g, Client.game Scenario.starting = Some g /\
                 Game.players g !! "hasOwnProperty"%string = None).
  { let g := game_of Scenario.starting in exists g.
    split; vm_compute; reflexivity. }
  destruct Hg as (g & Hg & Hp).
  destruct (own_bet_debits Scenario.clock "Shiba" 1000 false
              [("Shiba"%string, 1000%float)] Scenario.starting g)
    as (c1 & c2 & E1 & E2 & _ & _ & Hs & Hb);
    [vm_compute; reflexivity | vm_compute; reflexivity | exact Hg
     | repeat constructor; intros H; inversion H | now left | discriminate
     | exact Hp | intros [] |].
  exists c1, c2. split; [exact E1 |]. split; [exact E2 |]. split; [exact Hs |].
  rewrite Hb.
  assert (Eb : Client.balance Scenario.starting = Some 100000%float)
    by (vm_compute; reflexivity).
  now rewrite Eb.
Defined.

(** ** From one round to the next *)

(** X6.  The hash that [game_crash] reveals is the seed hash of the round
    that the next [game_starting] opens, whether or not the handling of the
    crash went to its end; the new round has no players, no ticks and no
    crash data. *)
Theorem reveal_chain (clock clock' : Clock) (data : Client.CrashData)
    (next : Client.StartingData) (c : Client.t) (g : Game.t) :
  Client.game c = Some g ->
  exists g',
    Client.game (snd (Client.onGameStarting clock' next
                        (snd (Client.onGameCrash clock data c)))) = Some g' /\
    Game.serverSeedHash g' = Some (Client.hash data) /\
    Game.id g' = Client.starting_game_id next /\
    Game.state g' = STARTING /\ Game.players g' = ∅ /\ Game.ticks g' = [] /\
    Game.serverSeed g' = None /\ Game.crashPoint g' = None.
Proof.
  intros Hg. unfold Client.onGameCrash. rewrite Hg.
  destruct (Client.add_bonuses _ _ _) as [[[] | e] [proto players]];
    [destruct (strict_eq _ PLAYING || _); case_getGameInfo |];
    (eexists; split; [reflexivity |]; repeat split).
Qed.

Lemma reveal_chain_witness :
  exists g',
    Client.game (snd (Client.onGameStarting Scenario.clock (Client.mkStarting 1000021 5000)
                        (snd (Client.onGameCrash Scenario.clock (Scenario.crash 172085350)
                                Scenario.playing)))) = Some g' /\
    Game.serverSeedHash g' = Some Scenario.big_seed /\
    Game.id g' = 1000021 /\
    Game.state g' = STARTING /\ Game.players g' = ∅ /\ Game.ticks g' = [] /\
    Game.serverSeed g' = None /\ Game.crashPoint g' = None.
Proof.
  let g := game_of Scenario.playing in
  refine (reveal_chain Scenario.clock Scenario.clock (Scenario.crash 172085350)
            (Client.mkStarting 1000021 5000) Scenario.playing g _).
  vm_compute. reflexivity.
Defined.

(** X7.  After a [game_crash] that was handled to the end, [getGameInfo]
    (at any later time) returns: the round is ENDED, the seed and the crash
    point are the ones the event carried, and the verdict is the one of the
    crash point computed from that seed against the reported one. *)
Theorem getGameInfo_after_crash (clock clock' : Clock) (data : Client.CrashData)
    (c c' : Client.t) :
  Client.onGameCrash clock data c = (Ok tt, c') ->
  exists info, Client.getGameInfo clock' c' = Ok info /\
    Client.info_state info = ENDED /\
    Client.info_server_seed info = Some (Client.hash data) /\
    Client.info_game_crash info = Some (Client.game_crash data) /\
    Client.info_verified info =
      Some (Client.verdict (Lib.crashPoint (Client.hash data))
                           (Some (Client.game_crash data))).
Proof.
  unfold Client.onGameCrash.
  destruct (Client.game c) as [g |]; [| discriminate].
  destruct (Client.add_bonuses _ _ _) as [[[] | e] [proto players]]; [| discriminate].
  destruct (strict_eq _ PLAYING || _); case_getGameInfo; try discriminate;
    intros [= <-]; eexists; (split; [reflexivity |]); repeat split.
Qed.

Lemma getGameInfo_after_crash_witness :
  exists info,
    Client.getGameInfo Scenario.clock
      (Scenario.run (Client.onGameCrash Scenario.clock (Scenario.crash 172085350))
                    Scenario.playing) = Ok info /\
    Client.info_state info = ENDED /\
    Client.info_server_seed info = Some Scenario.big_seed /\
    Client.info_game_crash info = Some 172085350%float /\
    Client.info_verified info =
      Some (Client.verdict (Lib.crashPoint Scenario.big_seed) (Some 172085350%float)).
Proof.
  apply (getGameInfo_after_crash Scenario.clock Scenario.clock
           (Scenario.crash 172085350) Scenario.playing).
  unfold Scenario.run.
  destruct (Client.onGameCrash _ _ _) as [r c'] eqn:E.
  assert (Hr : fst (Client.onGameCrash Scenario.clock (Scenario.crash 172085350)
                      Scenario.playing) = Ok tt) by (vm_compute; reflexivity).
  rewrite E in Hr. cbn in Hr. now subst r.
Defined.

(** Writing a property on [o[name]] adds no name. *)
Lemma update_get_None (f : Player.t -> Player.t) (name n : string)
    (proto players : gmap string Player.t) :
  Obj.get proto players n = None ->
  Obj.get (fst (Obj.update f name proto players))
          (snd (Obj.update f name proto players)) n = None.
Proof.
  unfold Obj.get, Obj.update.
  destruct (players !! n) eqn:En; [discriminate |]. intros Hp.
  destruct (players !! name) as [p |] eqn:E; cbn [fst snd].
  - rewrite lookup_insert_ne by congruence. now rewrite En.
  - rewrite En. destruct (decide (name = n)) as [-> | Hne].
    + now rewrite lookup_alter_eq, Hp.
    + now rewrite lookup_alter_ne.
Qed.

Lemma add_bonuses_unknown (bs : list (string * float))
    (proto players : gmap string Player.t) :
  Exists (fun b => Obj.get proto players (fst b) = None) bs ->
  fst (Client.add_bonuses bs proto players) = Throw AssertionError.
Proof.
  revert proto players. induction bs as [| [name amount] bs IH]; intros proto players H.
  - inversion H.
  - cbn [Client.add_bonuses].
    destruct (Obj.get proto players name) as [p |] eqn:Hp; [| reflexivity].
    pose proof (fun n => update_get_None (Player.set_bonus amount) name n proto players) as Hu.
    destruct (Obj.update _ name proto players) as [proto' players'].
    apply IH. inversion H as [? ? H1 | ? ? H1]; subst.
    + cbn in H1. congruence.
    + eapply Exists_impl; [exact H1 |]. intros [n a] Hn. now apply Hu.
Qed.

(** X8.  A bonus under a name for which the players have nothing, neither
    an entry nor what every object inherits, stops [game_crash] with the
    failed assertion: the round is already ENDED with its seed and the
    seed is remembered for the next round, but the local user's state has
    not been touched, a PLAYING user staying PLAYING. *)
Theorem onGameCrash_unknown_bonus (clock : Clock) (data : Client.CrashData)
    (c : Client.t) (g : Game.t) :
  Client.game c = Some g ->
  Exists (fun b => Obj.get (Client.prototype c) (Game.players g) (fst b) = None)
         (Client.bonuses data) ->
  exists c' g',
    Client.onGameCrash clock data c = (Throw AssertionError, c') /\
    Client.userState c' = Client.userState c /\
    Client.lastServerSeed c' = Some (Client.hash data) /\
    Client.game c' = Some g' /\
    Game.state g' = ENDED /\ Game.serverSeed g' = Some (Client.hash data).
Proof.
  intros Hg Hb. unfold Client.onGameCrash. rewrite Hg.
  pose proof (add_bonuses_unknown (Client.bonuses data) _ _ Hb) as Ha.
  cbn [Game.crashed Game.players Client.prototype Client.set_lastServerSeed].
  destruct (Client.add_bonuses _ _ _) as [r [proto players]]. cbn in Ha. subst r.
  do 2 eexists. split; [reflexivity |]. repeat split.
Qed.

Lemma onGameCrash_unknown_bonus_witness :
  exists c' g',
    Client.onGameCrash Scenario.clock
      (Client.mkCrash false 1000 150 [("Ryan"%string, 42%float)] Scenario.big_seed)
      Scenario.playing = (Throw AssertionError, c') /\
    Client.userState c' = Client.userState Scenario.playing /\
    Client.lastServerSeed c' = Some Scenario.big_seed /\
    Client.game c' = Some g' /\
    Game.state g' = ENDED /\ Game.serverSeed g' = Some Scenario.big_seed.
Proof.
  let g := game_of Scenario.playing in
  refine (onGameCrash_unknown_bonus Scenario.clock
            (Client.mkCrash false 1000 150 [("Ryan"%string, 42%float)] Scenario.big_seed)
            Scenario.playing g _ _).
  - vm_compute. reflexivity.
  - apply Exists_cons_hd. vm_compute. reflexivity.
Defined.



(** X16.  [timeTillStart] reads [this.startTime], which the client never
    has (the start time is kept in [this.game]): the answer is NaN at any
    time and in any state. *)
Theorem timeTillStart_nan (clock : Clock) (c : Client.t) :
  Client.timeTillStart clock c = nan.
Proof.
  unfold Client.timeTillStart. cbn [Client.startTime JS.of_undefined]. apply sub_nan_l.
Qed.

(** ** Joining *)




(** A user named [constructor] who has no bet joins a round in progress as
    PLAYING; one named [Shiba] as WATCHING. *)
Lemma onJoin_inherited_name :
  List.map
    (fun name =>
       Client.userState
         (Scenario.run
            (Client.onJoin Scenario.host_pow Scenario.clock
               (Client.mkJoin IN_PROGRESS 1000020
                  "20c8a18be0fb4d4529b661938350bfbea3ed822c4dc83e764a079efa14ec9af9"
                  3597 1422051990000 (Some name) (Some 100000%float)
                  {[ "Steve"%string := Player.mk (Some 500000%float) None None ]} []))
            Client.new))
    ["constructor"; "Shiba"; "Steve"]%string
  = [Some PLAYING; Some WATCHING; Some PLAYING].
Proof. vm_compute. reflexivity. Qed.

(** X14.  [getGameInfo] right after joining: between two rounds (state
    ENDED) it throws, the seed of the round that ended not being known to
    the client; otherwise it returns, without crash point or verdict. *)
Theorem getGameInfo_after_join (Math_pow : float -> float -> float)
    (clock clock' : Clock) (data : Client.JoinData) (c : Client.t) :
  (Client.join_state data = ENDED ->
   Client.getGameInfo clock' (snd (Client.onJoin Math_pow clock data c))
   = Throw AssertionError) /\
  (Client.join_state data <> ENDED ->
   exists info,
     Client.getGameInfo clock' (snd (Client.onJoin Math_pow clock data c)) = Ok info /\
     Client.info_verified info = None /\ Client.info_game_crash info = None /\
     Client.info_game_id info = Client.join_game_id data /\
     Client.info_server_seed_hash info = Some (Client.join_last_hash data)).
Proof.
  unfold Client.onJoin, Client.getGameInfo.
  destruct (Client.join_state data) eqn:E;
    cbn [GameState_eqb snd Client.game Game.state Game.set_ticks Game.set_microStartTime
         Game.serverSeed];
    split; intros H;
    try discriminate; try contradiction; try reflexivity;
    eexists; (split; [reflexivity |]); repeat split.
Qed.

(** ** Runs of events *)

(** One [game_tick] with a round and a model in place. *)
Lemma onGameTick_appends (Math_pow : float -> float -> float) (clock : Clock)
    (elapsed : Z) (c : Client.t) (g : Game.t) (m : LinearModel.t) :
  Client.game c = Some g -> Client.tickModel c = Some m ->
  let micro := (microtime_now clock - JS.of_null (Game.microStartTime g))%float in
  let tick := Tick.mk elapsed (Client.growthFunc Math_pow (Some elapsed)) (Some micro) in
  Client.onGameTick Math_pow clock elapsed c =
    (Ok tt,
     Client.set_tickModel (Some (LinearModel.add (JS.Z_to_number elapsed) micro m))
       (Client.set_game (Some (Game.set_ticks (Game.ticks g ++ [tick]) g)) c)).
Proof.
  intros Hg Hm. cbn zeta. unfold Client.onGameTick.
  assert (Hl : exists last, Client.getLastTick c = Ok last).
  { unfold Client.getLastTick. rewrite Hg. destruct (0 <? _); eauto. }
  destruct Hl as [last ->]. rewrite Hg.
  cbn [Client.tickModel Client.set_game]. rewrite Hm.
  match goal with |- context [Client.estimateNextTick ?p ?x] =>
    assert (Hn : exists next, Client.estimateNextTick p x = Ok next) end.
  { unfold Client.estimateNextTick, Client.elapsedToMicro.
    match goal with |- context [Client.getLastTick ?x] =>
      assert (Hl : exists l, Client.getLastTick x = Ok l)
        by (unfold Client.getLastTick; cbn; destruct (0 <? _); eauto);
      destruct Hl as [l ->];
      destruct (estimateTickTimeDiff_returns x _ eq_refl) as [d ->]
    end.
    cbn. eauto. }
  destruct Hn as [next ->]. reflexivity.
Qed.

(** X11.  A run of [game_tick] events on a round with its model in place is
    handled to the end and appends one tick per event, in the order of the
    events, each with the elapsed time of its event, the growth at that
    time and the microseconds since the start of the round; the state of
    the round, its players, the local state and the balance stay. *)
Theorem ticks_in_order (Math_pow : float -> float -> float)
    (ticks : list (Clock * Z)) (c : Client.t) (g : Game.t) (m : LinearModel.t) :
  Client.game c = Some g -> Client.tickModel c = Some m ->
  exists c' g',
    Client.run_events Math_pow
      (List.map (fun t => (fst t, Client.Ev_game_tick (snd t))) ticks) c = (Ok tt, c') /\
    Client.game c' = Some g' /\
    Game.ticks g' =
      Game.ticks g ++
      List.map (fun t =>
                  Tick.mk (snd t) (Client.growthFunc Math_pow (Some (snd t)))
                    (Some (microtime_now (fst t) - JS.of_null (Game.microStartTime g))%float))
               ticks /\
    Game.state g' = Game.state g /\ Game.players g' = Game.players g /\
    Client.userState c' = Client.userState c /\ Client.balance c' = Client.balance c.
Proof.
  revert c g m. induction ticks as [| [clock elapsed] ticks IH]; intros c g m Hg Hm.
  - exists c, g. cbn. rewrite app_nil_r. now repeat split.
  - cbn [List.map Client.run_events Client.on fst snd].
    rewrite (onGameTick_appends Math_pow clock elapsed c g m Hg Hm).
    match goal with |- context [Client.run_events _ _ ?c1] =>
      edestruct (IH c1 _ _ eq_refl eq_refl)
        as (c' & g' & E & Eg & Et & Es & Ep & Eu & Eb)
    end.
    exists c', g'. split; [exact E |]. split; [exact Eg |].
    rewrite Et. cbn [Game.ticks Game.set_ticks Game.microStartTime].
    rewrite <- app_assoc. repeat split; assumption.
Qed.

Lemma ticks_in_order_witness :
  exists c' g',
    Client.run_events Scenario.host_pow
      (List.map (fun t => (fst t, Client.Ev_game_tick (snd t)))
                [(Scenario.clock, 250); (Scenario.clock, 500)]) Scenario.playing
      = (Ok tt, c') /\
    Client.game c' = Some g' /\
    List.map Tick.elapsed (Game.ticks g') = [0; 250; 500].
Proof.
  assert (Hg : exists g m, Client.game Scenario.playing = Some g /\
                           Client.tickModel Scenario.playing = Some m /\
                           Game.ticks g = [Client.tick0]).
  { let g := game_of Scenario.playing in
    let m := eval vm_compute in (Client.tickModel Scenario.playing) in
    match m with Some ?m => exists g, m end.
    repeat split; vm_compute; reflexivity. }
  destruct Hg as (g & m & Hg & Hm & Ht).
  destruct (ticks_in_order Scenario.host_pow
              [(Scenario.clock, 250); (Scenario.clock, 500)] Scenario.playing g m Hg Hm)
    as (c' & g' & E & Eg & Et & _).
  exists c', g'. split; [exact E |]. split; [exact Eg |].
  rewrite Et, Ht. reflexivity.
Defined.

(** One event that does not name a watching user. *)
Lemma on_spectator (Math_pow : float -> float -> float) (clock : Clock)
    (ev : Client.Event) (c : Client.t) :
  Client.userState c = Some WATCHING ->
  Client.names_user (Client.username c) ev = false ->
  Client.userState (snd (Client.on Math_pow clock ev c)) = Some WATCHING /\
  Client.balance (snd (Client.on Math_pow clock ev c)) = Client.balance c /\
  Client.username (snd (Client.on Math_pow clock ev c)) = Client.username c.
Proof.
  intros Hs Hn. destruct ev as [d | bets | elapsed | d | d | d]; cbn [Client.on].
  - repeat split.
  - unfold Client.onGameStarted.
    destruct (Client.game c) as [g |]; [| now repeat split].
    cbn [Client.names_user] in Hn.
    assert (Hf : Forall (fun b => Client.same_user (Client.username c) (fst b) = false) bets).
    { apply List.Forall_forall. intros b Hb.
      destruct (Client.same_user (Client.username c) (fst b)) eqn:E; [| reflexivity].
      rewrite <- Hn. symmetry. apply List.existsb_exists. eauto. }
    pose proof (started_bets_other _ bets (Client.balance c)
                  (Game.players (Game.started (date_now clock) (microtime_now clock) g)) Hf)
      as Hb.
    destruct (Client.started_bets _ _ _ _) as [[[] | e] [balance players]];
      cbn [fst snd] in Hb; subst; [rewrite Hs |]; now repeat split.
  - unfold Client.onGameTick.
    destruct (Client.getLastTick c) as [last | e];
      destruct (Client.game c) as [g |]; try now repeat split.
    cbn [Client.tickModel Client.set_game].
    destruct (Client.tickModel c) as [m |]; [| now repeat split].
    match goal with |- context [Client.estimateNextTick ?p ?x] =>
      destruct (Client.estimateNextTick p x) end; now repeat split.
  - unfold Client.onGameCrash.
    destruct (Client.game c) as [g |]; [| now repeat split].
    destruct (Client.add_bonuses _ _ _) as [[[] | e] [proto players]]; [| now repeat split].
    cbn [Client.userState Client.set_game Client.set_lastServerSeed Client.set_prototype
         Client.state strict_eq].
    rewrite Hs. cbn [UserState_eqb orb]. case_getGameInfo; now repeat split.
  - unfold Client.onPlayerBet.
    destruct (Client.game c) as [g |]; [| now repeat split].
    cbn [Client.names_user] in Hn. cbn [Client.username Client.set_game].
    rewrite Hn. now repeat split.
  - unfold Client.onCashedOut.
    destruct (Client.game c) as [g |]; [| now repeat split].
    destruct (Obj.get _ _ _) as [p |]; [| now repeat split].
    destruct (Obj.update _ _ _ _) as [proto players].
    cbn [Client.names_user] in Hn.
    cbn [Client.username Client.set_game Client.set_prototype].
    rewrite Hn. now repeat split.
Qed.

(** X12.  A WATCHING user whom no event of a run names, neither as a key of
    the bets of a [game_started] nor as the user of a [player_bet] or a
    [cashed_out], is WATCHING after the run with the same balance, whether
    the run is handled to the end or cut short by an exception. *)
Theorem spectator_stays (Math_pow : float -> float -> float)
    (evs : list (Clock * Client.Event)) (c : Client.t) :
  Client.userState c = Some WATCHING ->
  Forall (fun e => Client.names_user (Client.username c) (snd e) = false) evs ->
  Client.userState (snd (Client.run_events Math_pow evs c)) = Some WATCHING /\
  Client.balance (snd (Client.run_events Math_pow evs c)) = Client.balance c /\
  Client.username (snd (Client.run_events Math_pow evs c)) = Client.username c.
Proof.
  intros Hs Hf. revert c Hs Hf.
  induction evs as [| [clock ev] evs IH]; intros c Hs Hf.
  - now repeat split.
  - inversion_clear Hf as [| ? ? Hev Hevs]. cbn [snd] in Hev.
    destruct (on_spectator Math_pow clock ev c Hs Hev) as (H1 & H2 & H3).
    cbn [Client.run_events].
    destruct (Client.on Math_pow clock ev c) as [[[] | e] c'] eqn:E; cbn [snd] in *.
    + rewrite <- H2, <- H3. apply IH; [assumption |]. now rewrite H3.
    + now repeat split.
Qed.

Lemma spectator_stays_witness :
  let evs :=
    [(Scenario.clock, Client.Ev_player_bet (Client.mkBet "Ryan" 500 true));
     (Scenario.clock, Client.Ev_game_started [("Ryan"%string, 500%float)]);
     (Scenario.clock, Client.Ev_game_tick 250);
     (Scenario.clock, Client.Ev_cashed_out (Client.mkCashedOut "Ryan" 101));
     (Scenario.clock, Client.Ev_game_crash (Scenario.crash 172085350))] in
  Client.userState (snd (Client.run_events Scenario.host_pow evs Scenario.starting))
    = Some WATCHING /\
  Client.balance (snd (Client.run_events Scenario.host_pow evs Scenario.starting))
    = Client.balance Scenario.starting /\
  Client.username (snd (Client.run_events Scenario.host_pow evs Scenario.starting))
    = Client.username Scenario.starting.
Proof.
  apply spectator_stays; [vm_compute; reflexivity |].
  repeat constructor.
Defined.

(** ** The spread of the tick intervals *)

Lemma sorted_lookup_le (l : list Z) (i j : nat) (a b : Z) :
  StronglySorted Z.le l -> (i <= j)%nat ->
  l !! i = Some a -> l !! j = Some b -> a <= b.
Proof.
  intros H. revert i j. induction H as [| x l Hs IH Hx]; intros i j Hij Ha Hb.
  - discriminate.
  - destruct i as [| i], j as [| j]; cbn in Ha, Hb.
    + injection Ha as <-. injection Hb as <-. lia.
    + injection Ha as <-. rewrite List.Forall_forall in Hx. apply Hx.
      apply list_elem_of_In. eapply list_elem_of_lookup_2. exact Hb.
    + lia.
    + apply (IH i j); [lia | assumption..].
Qed.

(** X15.  From 2 ticks on (and below 4000), the two bounds that
    [estimateTickTimeDiff] returns are defined, each is one of the
    differences between consecutive ticks, and the lower is at most the
    upper. *)
Theorem estimateTickTimeDiff_ordered (c : Client.t) (g : Game.t) :
  Client.game c = Some g ->
  (2 <= List.length (Game.ticks g) < 4000)%nat ->
  exists lo hi,
    Client.estimateTickTimeDiff c =
      Ok {| Client.lower := Some lo; Client.upper := Some hi |} /\
    lo <= hi /\
    In lo (Client.diffs_of (Game.ticks g)) /\ In hi (Client.diffs_of (Game.ticks g)).
Proof.
  intros Hg Hl. unfold Client.estimateTickTimeDiff. rewrite Hg.
  destruct (Game.ticks g) as [| a [| b [| d [| e r]]]] eqn:Et; cbn [List.length] in Hl;
    try lia.
  - do 2 eexists. split; [reflexivity |]. cbn. split; [lia | tauto].
  - do 2 eexists. split; [reflexivity |]. cbn. split; [lia |].
    split; [destruct (Z.min_spec (Tick.elapsed b - Tick.elapsed a)
                                 (Tick.elapsed d - Tick.elapsed b)) as [[_ ->] | [_ ->]]
           | destruct (Z.max_spec (Tick.elapsed b - Tick.elapsed a)
                                  (Tick.elapsed d - Tick.elapsed b)) as [[_ ->] | [_ ->]]];
      tauto.
  - set (ticks := a :: b :: d :: e :: r) in *.
    set (sorted := merge_sort Z.le (Client.diffs_of ticks)).
    assert (Hp : sorted ≡ₚ Client.diffs_of ticks) by apply merge_sort_Permutation.
    assert (Hn : List.length sorted = Nat.pred (List.length ticks)).
    { rewrite <- diffs_of_length. now apply Permutation_length. }
    assert (Hlen : (3 <= List.length sorted < 4000)%nat).
    { rewrite Hn. unfold ticks. cbn [List.length Nat.pred]. lia. }
    assert (Hs : StronglySorted Z.le sorted).
    { apply Sorted_StronglySorted; [intros x y z; lia |].
      apply (Sorted_merge_sort Z.le). }
    destruct (percentile_index_small (List.length sorted) ltac:(lia)) as [E1 E2].
    unfold Client.at_index. rewrite E1, E2.
    assert (H1 : 0 <= Z.of_nat (List.length sorted) / 20) by (apply Z.div_pos; lia).
    assert (H2 : 0 <= 19 * Z.of_nat (List.length sorted) / 20) by (apply Z.div_pos; lia).
    assert (H3 : 19 * Z.of_nat (List.length sorted) / 20 < Z.of_nat (List.length sorted))
      by (apply Z.div_lt_upper_bound; lia).
    assert (H4 : Z.of_nat (List.length sorted) / 20
                 <= 19 * Z.of_nat (List.length sorted) / 20)
      by (apply Z.div_le_mono; lia).
    pose proof (proj2 (Z.leb_le _ _) H1) as B1.
    pose proof (proj2 (Z.leb_le _ _) H2) as B2. rewrite B1, B2.
    destruct (lookup_lt_is_Some_2 sorted
                (Z.to_nat (Z.of_nat (List.length sorted) / 20)) ltac:(lia)) as [lo Hlo].
    destruct (lookup_lt_is_Some_2 sorted
                (Z.to_nat (19 * Z.of_nat (List.length sorted) / 20)) ltac:(lia)) as [hi Hhi].
    exists lo, hi. rewrite Hlo, Hhi. split; [reflexivity |].
    split; [eapply (sorted_lookup_le sorted _ _ lo hi Hs); [| exact Hlo | exact Hhi]; lia |].
    split; apply list_elem_of_In; rewrite <- Hp; eapply list_elem_of_lookup_2; eassumption.
Qed.

Lemma estimateTickTimeDiff_ordered_witness :
  exists lo hi,
    Client.estimateTickTimeDiff Scenario.ticking =
      Ok {| Client.lower := Some lo; Client.upper := Some hi |} /\
    lo <= hi /\
    In lo [250; 250; 260; 240; 255] /\ In hi [250; 250; 260; 240; 255].
Proof.
  assert (Hg : exists g, Client.game Scenario.ticking = Some g /\
                 Client.diffs_of (Game.ticks g) = [250; 250; 260; 240; 255] /\
                 List.length (Game.ticks g) = 6%nat).
  { let g := game_of Scenario.ticking in exists g.
    repeat split; vm_compute; reflexivity. }
  destruct Hg as (g & Hg & Hd & Hl).
  destruct (estimateTickTimeDiff_ordered Scenario.ticking g Hg ltac:(lia))
    as (lo & hi & E & Hle & H1 & H2).
  rewrite Hd in H1, H2. exists lo, hi.
  split; [exact E |]. split; [exact Hle |]. split; assumption.
Defined.

(** ** The digest of [sha256] *)

Lemma round_length (ks : list Z) (st : list Z * list Z) :
  ks <> [] -> List.length (fst (List.fold_left Crypto.round ks st)) = 8%nat.
Proof.
  destruct ks as [| k ks _] using List.rev_ind; [congruence |]. intros _.
  rewrite List.fold_left_app. cbn [List.fold_left].
  destruct (List.fold_left Crypto.round ks st) as [v w]. reflexivity.
Qed.

Lemma compress_length (h block : list Z) :
  List.length h = 8%nat -> List.length (Crypto.compress h block) = 8%nat.
Proof.
  intros Hh. unfold Crypto.compress.
  pose proof (round_length Crypto.K256 (h, Crypto.be_words block)) as Hr.
  destruct (List.fold_left _ _ _) as [v w]. cbn [fst] in Hr.
  rewrite List.length_map, List.length_combine, Hh, Hr by discriminate. reflexivity.
Qed.

Lemma blocks_length (fuel : nat) (h bs : list Z) :
  List.length h = 8%nat -> List.length (Crypto.blocks fuel h bs) = 8%nat.
Proof.
  revert h bs. induction fuel as [| f IH]; intros h bs Hh; [exact Hh |].
  destruct bs as [| b bs]; [exact Hh |].
  cbn [Crypto.blocks]. apply IH. now apply compress_length.
Qed.

Lemma hex_length (bs : list Z) :
  String.length (Crypto.hex bs) = (2 * List.length bs)%nat.
Proof. induction bs as [| b bs IH]; cbn [Crypto.hex String.length List.length]; lia. Qed.

(** X18.  Whatever the data, [sha256] returns 64 characters, each a
    lower-case hexadecimal digit. *)
Theorem sha256_digest (data : string) :
  String.length (Lib.sha256 data) = 64%nat /\
  Forall (fun c => Spec.lower_hex c = true) (list_ascii_of_string (Lib.sha256 data)).
Proof.
  split; [| apply hex_all_lower].
  unfold Lib.sha256, Crypto.sha256. rewrite hex_length.
  set (p := Crypto.pad (Crypto.bytes_of data)).
  pose proof (blocks_length (List.length p) Crypto.H256 p eq_refl) as Hb.
  destruct (Crypto.blocks _ _ _) as [| a [| b [| c [| d [| e [| f [| g [| h [| ? ?]]]]]]]]];
    try discriminate Hb.
  reflexivity.
Qed.
